(** * SVG Icon Downloader: the paste-to-download pipeline

    A shallow embedding of the React component of [src/App.jsx] (the
    direct-passing revision) and of its earlier revision (the one that
    defers the download to a timer), with the host objects the component
    talks to: the [Blob] constructor, the object-URL registry, the hidden
    anchor element and React's queue of state updates. *)

From Stdlib Require Import NArith.
From stdpp Require Import base option list strings gmap.

Local Open Scope N_scope.

(** ** JavaScript strings

    A JavaScript string is a sequence of UTF-16 code units. *)

Abbreviation JsString := (list N).

Module Js.

(** The code units of an ASCII literal of the source. *)
Definition lit (s : string) : JsString :=
  map Ascii.N_of_ascii (String.list_ascii_of_string s).

(** [WhiteSpace] and [LineTerminator] of ECMAScript: the code units
    [String.prototype.trim] strips. *)
Definition isWhiteSpace (c : N) : bool :=
  (c =? 0x9) || (c =? 0xA) || (c =? 0xB) || (c =? 0xC) || (c =? 0xD)
  || (c =? 0x20) || (c =? 0xA0) || (c =? 0x1680)
  || ((0x2000 <=? c) && (c <=? 0x200A))
  || (c =? 0x2028) || (c =? 0x2029) || (c =? 0x202F) || (c =? 0x205F)
  || (c =? 0x3000) || (c =? 0xFEFF).

Fixpoint trimStart (s : JsString) : JsString :=
  match s with
  | [] => []
  | c :: s' => if isWhiteSpace c then trimStart s' else s
  end.

Definition trimEnd (s : JsString) : JsString := rev (trimStart (rev s)).

(** [s.trim()] *)
Definition trim (s : JsString) : JsString := trimEnd (trimStart s).

(** [s.startsWith(p)] *)
Fixpoint startsWith (s p : JsString) {struct p} : bool :=
  match p, s with
  | [], _ => true
  | _ :: _, [] => false
  | a :: p', b :: s' => (a =? b) && startsWith s' p'
  end.

(** [parts.join(sep)] *)
Fixpoint join (sep : JsString) (parts : list JsString) : JsString :=
  match parts with
  | [] => []
  | [p] => p
  | p :: ps => p ++ sep ++ join sep ps
  end.

(** [ToBoolean] on a string: only the empty string is falsy. *)
Definition truthy (s : JsString) : bool :=
  match s with [] => false | _ :: _ => true end.

Definition isHighSurrogate (c : N) : bool := (0xD800 <=? c) && (c <=? 0xDBFF).
Definition isLowSurrogate (c : N) : bool := (0xDC00 <=? c) && (c <=? 0xDFFF).

(** The conversion of a string to a sequence of Unicode scalar values,
    as a host interface that takes a [USVString] does it: a surrogate
    pair becomes its code point, a surrogate without its partner becomes
    U+FFFD. *)
Fixpoint toScalarValues (s : JsString) : list N :=
  match s with
  | [] => []
  | c :: s' =>
      if isHighSurrogate c then
        match s' with
        | [] => [0xFFFD]
        | d :: s'' =>
            if isLowSurrogate d then
              (0x10000 + (c - 0xD800) * 0x400 + (d - 0xDC00)) :: toScalarValues s''
            else 0xFFFD :: toScalarValues s'
        end
      else if isLowSurrogate c then 0xFFFD :: toScalarValues s'
      else c :: toScalarValues s'
  end.

(** The UTF-8 bytes of one scalar value. *)
Definition utf8EncodeScalar (v : N) : list N :=
  if v <? 0x80 then [v]
  else if v <? 0x800 then [0xC0 + v / 0x40; 0x80 + v mod 0x40]
  else if v <? 0x10000 then
    [0xE0 + v / 0x1000; 0x80 + (v / 0x40) mod 0x40; 0x80 + v mod 0x40]
  else
    [0xF0 + v / 0x40000; 0x80 + (v / 0x1000) mod 0x40;
     0x80 + (v / 0x40) mod 0x40; 0x80 + v mod 0x40].

(** UTF-8 encode of a string given to a host interface. *)
Definition utf8 (s : JsString) : list N := flat_map utf8EncodeScalar (toScalarValues s).

(** [s.isWellFormed()]: no surrogate without its partner. *)
Fixpoint isWellFormed (s : JsString) : bool :=
  match s with
  | [] => true
  | c :: s' =>
      if isHighSurrogate c then
        match s' with
        | [] => false
        | d :: s'' => isLowSurrogate d && isWellFormed s''
        end
      else negb (isLowSurrogate c) && isWellFormed s'
  end.

(** The value a textarea reports: its raw value with every CR LF, and
    then every CR left, replaced by LF. *)
Fixpoint normalizeNewlines (s : JsString) : JsString :=
  match s with
  | [] => []
  | c :: s' =>
      if c =? 0xD then
        0xA :: match s' with
               | [] => []
               | d :: s'' => if d =? 0xA then normalizeNewlines s'' else normalizeNewlines s'
               end
      else c :: normalizeNewlines s'
  end.

End Js.

(** ** A state and exception monad

    JavaScript statements run in sequence over a mutable world and may
    complete abruptly; [SE W A] threads the world [W] and stops at the
    first exception. *)

Inductive Exn := TypeError | HostError.

Inductive Result (A : Type) :=
| Ret (a : A)
| Throw (e : Exn).
Arguments Ret {A} a.
Arguments Throw {A} e.

Definition SE (W A : Type) : Type := W -> Result A * W.

Definition ret {W A} (a : A) : SE W A := fun w => (Ret a, w).

Definition throw {W A} (e : Exn) : SE W A := fun w => (Throw e, w).

Definition bind {W A B} (m : SE W A) (k : A -> SE W B) : SE W B :=
  fun w =>
    match m w with
    | (Ret a, w') => k a w'
    | (Throw e, w') => (Throw e, w')
    end.

Definition gets {W A} (f : W -> A) : SE W A := fun w => (Ret (f w), w).

Definition modify {W} (f : W -> W) : SE W unit := fun w => (Ret tt, f w).

(** Runs a computation of a component of the world inside the world. *)
Definition zoom {W V A} (get : W -> V) (set : V -> W -> W) (m : SE V A) : SE W A :=
  fun w => let '(r, v) := m (get w) in (r, set v w).

Definition exec {W A} (m : SE W A) (w : W) : W := snd (m w).

Definition outcome {W A} (m : SE W A) (w : W) : Result A := fst (m w).

Declare Scope se_scope.
Delimit Scope se_scope with se.
Notation "x <- m ;; k" := (bind m (fun x => k))
  (at level 100, m at next level, right associativity) : se_scope.
Notation "m ;; k" := (bind m (fun _ => k))
  (at level 100, right associativity) : se_scope.
Local Open Scope se_scope.

(** ** The host: blobs, object URLs and the hidden anchor *)

Module Host.

(** A blob: its bytes and its MIME type. *)
Record Blob := mkBlob { blob_bytes : list N; blob_type : JsString }.

(** Object URLs, named by their serial number. *)
Abbreviation Url := nat.

(** The attributes of the hidden [<a>] element the component writes. *)
Record Anchor := mkAnchor { href : option Url; download : option JsString }.

Inductive Call :=
| NewBlob (parts : list JsString) (type : JsString)
| CreateObjectURL (b : Blob) (u : Url)
| SetHref (u : Url)
| SetDownload (name : JsString)
| Click
| RevokeObjectURL (u : Url).

Record Host := mkHost {
  anchor : option Anchor;          (* downloadLinkRef.current; None is null *)
  urls : gmap nat Blob;            (* the live object URLs *)
  saved : list (JsString * Blob);  (* files saved: suggested name, content *)
  click_throws : bool;             (* whether anchor.click() completes abruptly *)
  calls : list Call                (* the host calls made so far, oldest first *)
}.

Definition log (c : Call) (h : Host) : Host :=
  mkHost (anchor h) (urls h) (saved h) (click_throws h) (calls h ++ [c]).

Definition set_anchor (a : option Anchor) (h : Host) : Host :=
  mkHost a (urls h) (saved h) (click_throws h) (calls h).

Definition set_urls (m : gmap nat Blob) (h : Host) : Host :=
  mkHost (anchor h) m (saved h) (click_throws h) (calls h).

Definition add_saved (f : JsString * Blob) (h : Host) : Host :=
  mkHost (anchor h) (urls h) (saved h ++ [f]) (click_throws h) (calls h).

(** The [type] of a blob: empty when the given type has a character
    outside U+0020 to U+007E, else the given type in ASCII lower case. *)
Definition blobType (type : JsString) : JsString :=
  if forallb (fun c => (0x20 <=? c) && (c <=? 0x7E)) type then
    map (fun c => if (0x41 <=? c) && (c <=? 0x5A) then c + 0x20 else c) type
  else [].

(** [new Blob(parts, { type })] on string parts: the bytes are the UTF-8
    encodings of the parts, in order. *)
Definition newBlob (parts : list JsString) (type : JsString) : SE Host Blob :=
  let b := mkBlob (flat_map Js.utf8 parts) (blobType type) in
  modify (log (NewBlob parts type)) ;; ret b.

(** [URL.createObjectURL(blob)]: registers the blob under a URL that is
    not in use. *)
Definition createObjectURL (b : Blob) : SE Host Url :=
  u <- gets (fun h => fresh (dom (urls h))) ;;
  modify (fun h => log (CreateObjectURL b u) (set_urls (<[u := b]> (urls h)) h)) ;;
  ret u.

(** [URL.revokeObjectURL(url)] *)
Definition revokeObjectURL (u : Url) : SE Host unit :=
  modify (fun h => log (RevokeObjectURL u) (set_urls (delete u (urls h)) h)).

(** [downloadLinkRef.current] *)
Definition current : SE Host (option Anchor) := gets anchor.

(** [downloadLinkRef.current.href = url]; the assignment to a property
    of [null] is a TypeError. *)
Definition setHref (u : Url) : SE Host unit :=
  a <- current ;;
  match a with
  | None => throw TypeError
  | Some a => modify (fun h => log (SetHref u) (set_anchor (Some (mkAnchor (Some u) (download a))) h))
  end.

(** [downloadLinkRef.current.download = name] *)
Definition setDownload (name : JsString) : SE Host unit :=
  a <- current ;;
  match a with
  | None => throw TypeError
  | Some a => modify (fun h => log (SetDownload name) (set_anchor (Some (mkAnchor (href a) (Some name))) h))
  end.

(** What the host saves when an anchor is activated: the blob its [href]
    names, under the name of its [download] attribute. *)
Definition activation (h : Host) (a : Anchor) : option (JsString * Blob) :=
  u ← href a; b ← urls h !! u; name ← download a; Some (name, b).

(** [downloadLinkRef.current.click()] *)
Definition click : SE Host unit :=
  a <- current ;;
  match a with
  | None => throw TypeError
  | Some a =>
      modify (log Click) ;;
      throws <- gets click_throws ;;
      if throws : bool then throw HostError
      else modify (fun h => match activation h a with
                            | Some f => add_saved f h
                            | None => h
                            end)
  end.

End Host.

(** ** The component of [src/App.jsx] *)

Module App.
Import Host.

(** The two [useState] cells. *)
Record State := mkState { svgCode : JsString; error : JsString }.

(** The calls of the two setters; React queues them and applies them at
    the next commit. *)
Inductive Update :=
| SetSvgCode (v : JsString)
| SetError (v : JsString).

Definition apply_update (st : State) (u : Update) : State :=
  match u with
  | SetSvgCode v => mkState v (error st)
  | SetError v => mkState (svgCode st) v
  end.

Record World := mkWorld {
  rendered : State;          (* the state of the last committed render *)
  pending : list Update;     (* setter calls not committed yet *)
  defaultPrevented : bool;   (* of the event being dispatched *)
  exports : list JsString;   (* the arguments of the calls of downloadSvg *)
  host : Host
}.

Definition set_host (h : Host) (w : World) : World :=
  mkWorld (rendered w) (pending w) (defaultPrevented w) (exports w) h.

Definition set_prevented (b : bool) (w : World) : World :=
  mkWorld (rendered w) (pending w) b (exports w) (host w).

Definition enqueue (u : Update) (w : World) : World :=
  mkWorld (rendered w) (pending w ++ [u]) (defaultPrevented w) (exports w) (host w).

Definition note_export (code : JsString) (w : World) : World :=
  mkWorld (rendered w) (pending w) (defaultPrevented w) (exports w ++ [code]) (host w).

Definition liftH {A} (m : SE Host A) : SE World A := zoom host set_host m.

Definition setSvgCode (v : JsString) : SE World unit := modify (enqueue (SetSvgCode v)).
Definition setError (v : JsString) : SE World unit := modify (enqueue (SetError v)).
Definition preventDefault : SE World unit := modify (set_prevented true).

(** The initial value of [svgCode]: the sample icon, written as the
    pieces between its double quotes. *)
Definition sample_icon : JsString :=
  Js.join (Js.lit (String (Ascii.ascii_of_nat 34) EmptyString))
    (map Js.lit
       [ "<svg xmlns="; "http://www.w3.org/2000/svg"; " width="; "24";
         " height="; "24"; " viewBox="; "0 0 24 24"; " fill="; "none";
         " stroke="; "currentColor"; " strokeWidth="; "2";
         " strokeLinecap="; "round"; " strokeLinejoin="; "round";
         " class="; "lucide lucide-arrow-down-circle"; "><circle cx=";
         "12"; " cy="; "12"; " r="; "10"; "/><path d="; "M12 8v8";
         "/><path d="; "m8 12 4 4 4-4"; "/></svg>" ]).

Definition initial_state : State := mkState sample_icon [].

(** The world after the first render, on a given host. *)
Definition mount (h : Host) : World := mkWorld initial_state [] false [] h.

Definition svg_prefix : JsString := Js.lit "<svg".
Definition svg_mime : JsString := Js.lit "image/svg+xml".
Definition icon_name : JsString := Js.lit "icon.svg".
Definition invalid_message : JsString :=
  Js.lit "Please provide valid SVG code starting with <svg>.".

(** The guard of [downloadSvg]:
    [!codeToDownload || !codeToDownload.trim().startsWith('<svg')]. *)
Definition invalid (codeToDownload : JsString) : bool :=
  negb (Js.truthy codeToDownload)
  || negb (Js.startsWith (Js.trim codeToDownload) svg_prefix).

(** The validator: the texts the guard lets through. *)
Definition isPlausibleSvg (text : JsString) : bool := negb (invalid text).

(** The first step only records the call in [exports]; the rest is the
    body of the function. *)
Definition downloadSvg (codeToDownload : JsString) : SE World unit :=
  modify (note_export codeToDownload) ;;
  if invalid codeToDownload then
    setError invalid_message
  else
    setError [] ;;
    blob <- liftH (newBlob [codeToDownload] svg_mime) ;;
    url <- liftH (createObjectURL blob) ;;
    a <- liftH current ;;
    (if a is Some _ then
       liftH (setHref url) ;;
       liftH (setDownload icon_name) ;;
       liftH click
     else ret tt) ;;
    liftH (revokeObjectURL url).

Definition handleCodeChange (value : JsString) : SE World unit :=
  setError [] ;;
  setSvgCode value.

Definition handlePaste (clipboardText : JsString) : SE World unit :=
  preventDefault ;;
  let pastedText := clipboardText in
  setSvgCode pastedText ;;
  downloadSvg pastedText.

Definition handleManualDownload : SE World unit :=
  st <- gets rendered ;;
  downloadSvg (svgCode st).

(** The commit: React applies the queued updates in order and renders. *)
Definition flush (w : World) : World :=
  mkWorld (fold_left apply_update (pending w) (rendered w)) []
    (defaultPrevented w) (exports w) (host w).

(** What the render returns, as far as the state shows in it. *)
Record View := mkView {
  textarea_value : JsString;
  error_paragraph : option JsString;   (* [error && <p>...</p>] *)
  preview_html : JsString              (* [dangerouslySetInnerHTML] *)
}.

Definition render (st : State) : View :=
  mkView (svgCode st)
    (if Js.truthy (error st) then Some (error st) else None)
    (svgCode st).

(** The selected range of the textarea, in code units. *)
Record Selection := mkSelection { selStart : nat; selEnd : nat }.

(** The default action of a paste: the browser replaces the selected
    range of the textarea by the clipboard text. *)
Definition insertText (value : JsString) (sel : Selection) (text : JsString) : JsString :=
  take (selStart sel) value ++ text ++ drop (selEnd sel) value.

(** The value the textarea reports after that paste. *)
Definition pastedValue (value : JsString) (sel : Selection) (text : JsString) : JsString :=
  Js.normalizeNewlines (insertText value sel text).

Inductive Event :=
| Change (value : JsString)                        (* onChange, e.target.value *)
| Paste (clipboardText : JsString) (sel : Selection)  (* onPaste *)
| ClickButton.                                     (* onClick of the button *)

(** The handlers an event runs. A paste whose default was not prevented
    goes on, once React has committed, to change the textarea, which
    fires [onChange] with the new value when the value has changed. *)
Definition handle (ev : Event) (w : World) : World :=
  match ev with
  | Change v => exec (handleCodeChange v) w
  | Paste clip sel =>
      let w1 := exec (handlePaste clip) (set_prevented false w) in
      if defaultPrevented w1 then w1
      else
        let w2 := flush w1 in
        let value := svgCode (rendered w2) in
        if decide (pastedValue value sel clip = value) then w2
        else exec (handleCodeChange (pastedValue value sel clip)) w2
  | ClickButton => exec handleManualDownload w
  end.

(** One event: its handlers run, then React commits. *)
Definition dispatch (ev : Event) (w : World) : World := flush (handle ev w).

(** Whether the event makes an export attempt that the guard rejects. *)
Definition export_fails (ev : Event) (w : World) : bool :=
  match ev with
  | Change _ => false
  | Paste clip _ => invalid clip
  | ClickButton => invalid (svgCode (rendered w))
  end.

Definition run (evs : list Event) (w : World) : World := fold_left (fun w ev => dispatch ev w) evs w.

End App.

(** ** The earlier revision of the component (the timer-deferred download) *)

Module Deferred.
Import Host.

(** The three [useState] cells. *)
Record State := mkState {
  svgCode : JsString;
  error : JsString;
  downloadOnPaste : bool
}.

#[global] Instance State_eq_dec : EqDecision State.
Proof. solve_decision. Defined.

Inductive Update :=
| SetSvgCode (v : JsString)
| SetError (v : JsString)
| SetDownloadOnPaste (b : bool).

Definition apply_update (st : State) (u : Update) : State :=
  match u with
  | SetSvgCode v => mkState v (error st) (downloadOnPaste st)
  | SetError v => mkState (svgCode st) v (downloadOnPaste st)
  | SetDownloadOnPaste b => mkState (svgCode st) (error st) b
  end.

(** A pending [setTimeout]: its callback is a closure of one render, so
    it reads the state of that render. *)
Record Timer := mkTimer { closure : State; delay : nat }.

Record World := mkWorld {
  rendered : State;
  pending : list Update;
  timers : list Timer;       (* oldest first *)
  exports : list JsString;   (* the texts handleDownload was run on *)
  host : Host
}.

Definition set_host (h : Host) (w : World) : World :=
  mkWorld (rendered w) (pending w) (timers w) (exports w) h.

Definition set_timers (ts : list Timer) (w : World) : World :=
  mkWorld (rendered w) (pending w) ts (exports w) (host w).

Definition enqueue (u : Update) (w : World) : World :=
  mkWorld (rendered w) (pending w ++ [u]) (timers w) (exports w) (host w).

Definition note_export (code : JsString) (w : World) : World :=
  mkWorld (rendered w) (pending w) (timers w) (exports w ++ [code]) (host w).

Definition liftH {A} (m : SE Host A) : SE World A := zoom host set_host m.

Definition setSvgCode (v : JsString) : SE World unit := modify (enqueue (SetSvgCode v)).
Definition setError (v : JsString) : SE World unit := modify (enqueue (SetError v)).
Definition setDownloadOnPaste (b : bool) : SE World unit :=
  modify (enqueue (SetDownloadOnPaste b)).
Definition setTimeout (cl : State) (ms : nat) : SE World unit :=
  modify (fun w => set_timers (timers w ++ [mkTimer cl ms]) w).

Definition initial_state : State := mkState App.sample_icon [] false.

Definition mount (h : Host) : World := mkWorld initial_state [] [] [] h.

Definition invalid_message : JsString :=
  Js.lit "Please enter valid SVG code starting with <svg>.".
Definition pasted_invalid_message : JsString :=
  Js.lit "Pasted content is not valid SVG code.".

(** The guard of [handleDownload]:
    [!svgCode.trim() || !svgCode.trim().startsWith('<svg')]. *)
Definition invalid (svgCode : JsString) : bool :=
  negb (Js.truthy (Js.trim svgCode))
  || negb (Js.startsWith (Js.trim svgCode) App.svg_prefix).

Definition isPlausibleSvg (text : JsString) : bool := negb (invalid text).

Definition handleCodeChange (value : JsString) : SE World unit :=
  setError [] ;;
  setSvgCode value.

Definition handlePaste : SE World unit := setDownloadOnPaste true.

(** [handleDownload] of the render [cl]: it reads [svgCode] of that
    render. The first step only records the call in [exports]. *)
Definition handleDownload (cl : State) : SE World unit :=
  modify (note_export (svgCode cl)) ;;
  if invalid (svgCode cl) then
    setError invalid_message
  else
    setError [] ;;
    blob <- liftH (newBlob [svgCode cl] App.svg_mime) ;;
    url <- liftH (createObjectURL blob) ;;
    a <- liftH current ;;
    (if a is Some _ then
       liftH (setHref url) ;;
       liftH (setDownload App.icon_name) ;;
       liftH click
     else ret tt) ;;
    liftH (revokeObjectURL url).

(** The callback given to [setTimeout] by the effect of the render [cl]. *)
Definition timeoutCallback (cl : State) : SE World unit :=
  (if Js.startsWith (Js.trim (svgCode cl)) App.svg_prefix then
     handleDownload cl
   else
     setError pasted_invalid_message) ;;
  setDownloadOnPaste false.

(** The body of the [useEffect] of the render [cl]. *)
Definition effect (cl : State) : SE World unit :=
  if downloadOnPaste cl then setTimeout cl 100 else ret tt.

Definition flush (w : World) : World :=
  mkWorld (fold_left apply_update (pending w) (rendered w)) []
    (timers w) (exports w) (host w).

(** The commit: the queued updates are applied; when the state changed
    the component renders again, and the effect runs after every such
    render, [handleDownload] among its dependencies being a new function
    each time. *)
Definition commit (w : World) : World :=
  let w' := flush w in
  if decide (rendered w' = rendered w) then w'
  else exec (effect (rendered w')) w'.

Inductive Event :=
| Change (value : JsString)
| Paste (clipboardText : JsString) (sel : App.Selection)
| ClickButton
| TimerFires.

(** One event. A paste runs [handlePaste] and then, its default not
    being prevented, changes the textarea, which fires [onChange] with
    the new value when the value has changed; a timer runs the callback
    of the oldest pending timeout. *)
Definition dispatch (ev : Event) (w : World) : World :=
  match ev with
  | Change v => commit (exec (handleCodeChange v) w)
  | Paste clip sel =>
      let w1 := commit (exec handlePaste w) in
      let value := svgCode (rendered w1) in
      if decide (App.pastedValue value sel clip = value) then w1
      else commit (exec (handleCodeChange (App.pastedValue value sel clip)) w1)
  | ClickButton => commit (exec (handleDownload (rendered w)) w)
  | TimerFires =>
      match timers w with
      | [] => w
      | t :: ts => commit (exec (timeoutCallback (closure t)) (set_timers ts w))
      end
  end.

Definition run (evs : list Event) (w : World) : World :=
  fold_left (fun w ev => dispatch ev w) evs w.

End Deferred.

(** ** The bytes of a blob read back as text *)

(** The value of a continuation byte. *)
Definition continuation (b : N) : option N :=
  if (0x80 <=? b) && (b <? 0xC0) then Some (b - 0x80) else None.

(** The scalar values a sequence of bytes is the UTF-8 encoding of, if
    it is one. *)
Fixpoint utf8Decode (bs : list N) : option (list N) :=
  match bs with
  | [] => Some []
  | b1 :: r1 =>
      if b1 <? 0x80 then cons b1 <$> utf8Decode r1
      else if b1 <? 0xC0 then None
      else if b1 <? 0xE0 then
        match r1 with
        | b2 :: r2 =>
            x2 ← continuation b2;
            cons ((b1 - 0xC0) * 0x40 + x2) <$> utf8Decode r2
        | _ => None
        end
      else if b1 <? 0xF0 then
        match r1 with
        | b2 :: b3 :: r3 =>
            x2 ← continuation b2; x3 ← continuation b3;
            cons ((b1 - 0xE0) * 0x1000 + x2 * 0x40 + x3) <$> utf8Decode r3
        | _ => None
        end
      else if b1 <? 0xF8 then
        match r1 with
        | b2 :: b3 :: b4 :: r4 =>
            x2 ← continuation b2; x3 ← continuation b3; x4 ← continuation b4;
            cons ((b1 - 0xF0) * 0x40000 + x2 * 0x1000 + x3 * 0x40 + x4) <$> utf8Decode r4
        | _ => None
        end
      else None
  end.

(** The UTF-16 code units of a scalar value. *)
Definition utf16EncodeScalar (v : N) : JsString :=
  if v <? 0x10000 then [v]
  else [0xD800 + (v - 0x10000) / 0x400; 0xDC00 + (v - 0x10000) mod 0x400].

(** The string the bytes encode. *)
Definition decoded_text (bs : list N) : option JsString :=
  flat_map utf16EncodeScalar <$> utf8Decode bs.

(** A string of 16-bit code units in which every surrogate has its
    partner. *)
Definition well_formed (t : JsString) : Prop :=
  Forall (fun c => c < 0x10000) t /\ Js.isWellFormed t = true.

(** ** The validator as the specification words it *)

(** Removing leading and trailing whitespace: [u] is [t] without a run of
    whitespace at each end, and [u] itself neither begins nor ends with
    whitespace. *)
Definition stripped (t u : JsString) : Prop :=
  (exists l r, t = l ++ u ++ r
               /\ Forall (fun c => Js.isWhiteSpace c = true) l
               /\ Forall (fun c => Js.isWhiteSpace c = true) r)
  /\ (forall c, head u = Some c -> Js.isWhiteSpace c = false)
  /\ (forall c, last u = Some c -> Js.isWhiteSpace c = false).

(** The text, stripped, is not empty and starts with the literal. *)
Definition plausible_spec (t : JsString) : Prop :=
  exists u, stripped t u /\ u <> [] /\ exists rest, u = Js.lit "<svg" ++ rest.

(** ** The host side of a successful export

    What both revisions do once the guard has let a text through. *)

Definition export_to_host (text : JsString) : SE Host.Host unit :=
  blob <- Host.newBlob [text] App.svg_mime ;;
  url <- Host.createObjectURL blob ;;
  a <- Host.current ;;
  (if a is Some _ then
     Host.setHref url ;;
     Host.setDownload App.icon_name ;;
     Host.click
   else ret tt) ;;
  Host.revokeObjectURL url.

(** The host calls made between two states of the host. *)
Definition new_calls (before after : Host.Host) : list Host.Call :=
  drop (length (Host.calls before)) (Host.calls after).

(** The artifact of an export of [text]. *)
Definition svg_blob (text : JsString) : Host.Blob :=
  Host.mkBlob (Js.utf8 text) App.svg_mime.

(** The hosts of the examples: nothing registered, saved or called yet. *)
Definition host_with_anchor : Host.Host :=
  Host.mkHost (Some (Host.mkAnchor None None)) ∅ [] false [].
Definition host_without_anchor : Host.Host := Host.mkHost None ∅ [] false [].
Definition host_click_throws : Host.Host :=
  Host.mkHost (Some (Host.mkAnchor None None)) ∅ [] true [].

(** The message [downloadSvg] sets for a text. *)
Definition export_message (code : JsString) : JsString :=
  if App.invalid code then App.invalid_message else [].

(** ** Events as export attempts *)

(** The text an event of the component hands to [downloadSvg], if any:
    a paste its clipboard text, the button the rendered markup. *)
Definition export_text (ev : App.Event) (w : App.World) : option JsString :=
  match ev with
  | App.Change _ => None
  | App.Paste clip _ => Some clip
  | App.ClickButton => Some (App.svgCode (App.rendered w))
  end.

Definition is_export_event (ev : App.Event) : bool :=
  match ev with App.Change _ => false | _ => true end.

(** The host after [downloadSvg] has run on a text. *)
Definition host_after_export (code : JsString) (h : Host.Host) : Host.Host :=
  if App.invalid code then h else snd (export_to_host code h).

(** A saved file as the exporter makes them: named icon.svg, of the SVG
    MIME type, its only part a text the validator accepts. *)
Definition svg_file (f : JsString * Host.Blob) : Prop :=
  f.1 = App.icon_name
  /\ Host.blob_type f.2 = App.svg_mime
  /\ exists t, Host.blob_bytes f.2 = Js.utf8 t /\ App.isPlausibleSvg t = true.

Definition is_deferred_paste (ev : Deferred.Event) : bool :=
  match ev with Deferred.Paste _ _ => true | _ => false end.

(** * Properties *)

(** The blob the exporter makes: the UTF-8 bytes of the text, under the
    SVG type as given. *)
Lemma newBlob_svg (text : JsString) (h : Host.Host) :
  Host.newBlob [text] App.svg_mime h
  = (Ret (svg_blob text), Host.log (Host.NewBlob [text] App.svg_mime) h).
Proof.
  unfold Host.newBlob, bind, modify, ret, svg_blob. cbn [flat_map].
  rewrite app_nil_r. reflexivity.
Qed.

(** Runs the host calls of an export symbolically. *)
Ltac run_host :=
  unfold export_to_host, zoom, Host.createObjectURL,
    Host.revokeObjectURL, Host.setHref, Host.setDownload, Host.click,
    Host.current, Host.activation, bind, gets, modify, ret, throw;
  cbv beta; rewrite ?newBlob_svg;
  unfold Host.log, Host.set_urls, Host.set_anchor, Host.add_saved;
  cbn -[lookup insert delete fresh dom].

(** ** Strings *)

Section StringFacts.

Implicit Types (s t u p : JsString) (c : N).

Lemma trimStart_split s :
  exists l, s = l ++ Js.trimStart s
            /\ Forall (fun c => Js.isWhiteSpace c = true) l
            /\ (forall c, head (Js.trimStart s) = Some c -> Js.isWhiteSpace c = false).
Proof.
  induction s as [|a s IH]; simpl.
  - exists []. split; [done|]. split; [constructor|]. intros c Hc. discriminate.
  - destruct (Js.isWhiteSpace a) eqn:Ha.
    + destruct IH as (l & Hs & Hl & Hh).
      exists (a :: l). split; [simpl; congruence|]. split; [by constructor|done].
    + exists []. split; [done|]. split; [constructor|].
      simpl. intros c [= <-]. done.
Qed.

Lemma trimStart_app_ws l s :
  Forall (fun c => Js.isWhiteSpace c = true) l ->
  Js.trimStart (l ++ s) = Js.trimStart s.
Proof. induction 1 as [|a l Ha _ IH]; simpl; [done|]. by rewrite Ha. Qed.

Lemma trimStart_id s :
  (forall c, head s = Some c -> Js.isWhiteSpace c = false) ->
  Js.trimStart s = s.
Proof. destruct s as [|a s]; simpl; [done|]. intros H. by rewrite (H a). Qed.

Lemma trimEnd_app_ws s r :
  Forall (fun c => Js.isWhiteSpace c = true) r ->
  Js.trimEnd (s ++ r) = Js.trimEnd s.
Proof.
  intros Hr. unfold Js.trimEnd. rewrite rev_app_distr.
  rewrite trimStart_app_ws; [done|]. by apply Forall_rev.
Qed.

Lemma head_rev s : head (rev s) = last s.
Proof.
  induction s as [|a s _] using rev_ind; [done|].
  by rewrite rev_app_distr, last_snoc.
Qed.

Lemma trimEnd_id s :
  (forall c, last s = Some c -> Js.isWhiteSpace c = false) ->
  Js.trimEnd s = s.
Proof.
  intros H. unfold Js.trimEnd. rewrite trimStart_id; [apply rev_involutive|].
  intros c. rewrite head_rev. apply H.
Qed.

Lemma trim_stripped t : stripped t (Js.trim t).
Proof.
  unfold Js.trim.
  destruct (trimStart_split t) as (l & Ht & Hl & Hh).
  set (t1 := Js.trimStart t) in *.
  destruct (trimStart_split (rev t1)) as (r & Hr & Hrws & Hrh).
  assert (Ht1 : t1 = Js.trimEnd t1 ++ rev r).
  { unfold Js.trimEnd. rewrite <- rev_app_distr, <- Hr. by rewrite rev_involutive. }
  split; [|split].
  - exists l, (rev r). split; [by rewrite <- Ht1|]. split; [done|by apply Forall_rev].
  - intros c Hc. apply Hh. rewrite Ht1.
    destruct (Js.trimEnd t1); [discriminate|done].
  - intros c Hc. apply Hrh. unfold Js.trimEnd in Hc. by rewrite <- head_rev, rev_involutive in Hc.
Qed.

Lemma stripped_unique t u : stripped t u -> Js.trim t = u.
Proof.
  intros ((l & r & -> & Hl & Hr) & Hh & Hla).
  unfold Js.trim. rewrite trimStart_app_ws by done.
  destruct u as [|a u].
  - simpl. clear Hh Hla. unfold Js.trimEnd.
    assert (Js.trimStart r = []) as ->; [|done].
    rewrite <- (app_nil_r r). by rewrite trimStart_app_ws.
  - rewrite trimStart_id by (simpl; intros c [= <-]; by apply Hh).
    rewrite trimEnd_app_ws by done. by apply trimEnd_id.
Qed.

Lemma startsWith_prefix s p :
  Js.startsWith s p = true <-> exists rest, s = p ++ rest.
Proof.
  revert s. induction p as [|a p IH]; intros s; simpl.
  - split; [intros _; by exists s|done].
  - destruct s as [|b s].
    + split; [done|]. intros (rest & H). discriminate.
    + rewrite andb_true_iff, N.eqb_eq, IH. split.
      * intros (-> & rest & ->). by exists rest.
      * intros (rest & [= -> ->]). split; [done|by exists rest].
Qed.

Lemma trim_whitespace t :
  Forall (fun c => Js.isWhiteSpace c = true) t -> Js.trim t = [].
Proof.
  intros Ht. apply stripped_unique. split; [|by split].
  exists t, []. by rewrite app_nil_r.
Qed.

End StringFacts.

(** The guard of the exporter lets a text through exactly when its
    trimmed form starts with the literal. *)
Lemma App_isPlausibleSvg_startsWith (t : JsString) :
  App.isPlausibleSvg t = Js.startsWith (Js.trim t) App.svg_prefix.
Proof.
  unfold App.isPlausibleSvg, App.invalid.
  destruct t as [|a t]; [reflexivity|]. simpl Js.truthy. simpl negb at 2.
  by rewrite orb_false_l, negb_involutive.
Qed.

Lemma Deferred_isPlausibleSvg_startsWith (t : JsString) :
  Deferred.isPlausibleSvg t = Js.startsWith (Js.trim t) App.svg_prefix.
Proof.
  unfold Deferred.isPlausibleSvg, Deferred.invalid.
  destruct (Js.trim t) as [|a u]; [reflexivity|]. simpl Js.truthy. simpl negb at 2.
  by rewrite orb_false_l, negb_involutive.
Qed.

Lemma startsWith_plausible_spec (t : JsString) :
  Js.startsWith (Js.trim t) App.svg_prefix = true <-> plausible_spec t.
Proof.
  rewrite startsWith_prefix. split.
  - intros (rest & H). exists (Js.trim t). split; [apply trim_stripped|].
    split; [by rewrite H|]. by exists rest.
  - intros (u & Hs & _ & rest & ->). apply stripped_unique in Hs.
    exists rest. by rewrite Hs.
Qed.

(** C2. The validator accepts a text exactly when the text with its
    leading and trailing whitespace removed is not empty and starts with
    the literal [<svg], compared code unit by code unit; this holds for
    the guard of both revisions. It rejects every string of whitespace
    only, the empty string and the upper-case tag, and accepts a tag
    within spaces. *)
Theorem validator_accepts_iff_trimmed_prefix :
  (forall t : JsString,
     (App.isPlausibleSvg t = true <-> plausible_spec t)
     /\ (App.isPlausibleSvg t = true <->
         Js.trim t <> [] /\ exists rest, Js.trim t = Js.lit "<svg" ++ rest)
     /\ Deferred.isPlausibleSvg t = App.isPlausibleSvg t)
  /\ (forall t : JsString,
        Forall (fun c => Js.isWhiteSpace c = true) t -> App.isPlausibleSvg t = false)
  /\ App.isPlausibleSvg (Js.lit "") = false
  /\ App.isPlausibleSvg (Js.lit "   ") = false
  /\ App.isPlausibleSvg (Js.lit "<SVG></SVG>") = false
  /\ App.isPlausibleSvg (Js.lit "<svg></svg>") = true
  /\ App.isPlausibleSvg (Js.lit "  <svg/>  ") = true.
Proof.
  split; [|split; [|by repeat split]].
  2:{ intros t Ht. rewrite App_isPlausibleSvg_startsWith.
      by rewrite (trim_whitespace t Ht). }
  intros t. split; [|split].
  - rewrite App_isPlausibleSvg_startsWith. apply startsWith_plausible_spec.
  - rewrite App_isPlausibleSvg_startsWith, startsWith_prefix. split.
    + intros (rest & H). split; [by rewrite H|by exists rest].
    + intros (_ & H). exact H.
  - by rewrite App_isPlausibleSvg_startsWith, Deferred_isPlausibleSvg_startsWith.
Qed.

Lemma validator_accepts_iff_trimmed_prefix_witness :
  Forall (fun c => Js.isWhiteSpace c = true) (Js.lit "   ")
  /\ App.isPlausibleSvg (Js.lit "   ") = false.
Proof.
  assert (H : Forall (fun c => Js.isWhiteSpace c = true) (Js.lit "   "))
    by (repeat constructor).
  split; [exact H|].
  exact (proj1 (proj2 validator_accepts_iff_trimmed_prefix) (Js.lit "   ") H).
Defined.

(** ** UTF-8 *)

(** [lia] with division and remainder by constants. *)
Ltac Zify.zify_post_hook ::= Z.to_euclidean_division_equations.

Ltac split_ltb :=
  repeat match goal with
         | |- context [N.ltb ?a ?b] => destruct (N.ltb_spec a b); try lia
         | |- context [N.leb ?a ?b] => destruct (N.leb_spec a b); try lia
         end.

Lemma continuation_low x : x < 0x40 -> continuation (0x80 + x) = Some x.
Proof.
  intros H. unfold continuation. split_ltb. simpl. f_equal. lia.
Qed.

Lemma utf8Decode_scalar v rest :
  v < 0x110000 ->
  utf8Decode (Js.utf8EncodeScalar v ++ rest) = cons v <$> utf8Decode rest.
Proof.
  intros Hv. unfold Js.utf8EncodeScalar.
  destruct (N.ltb_spec v 0x80); [|destruct (N.ltb_spec v 0x800); [|destruct (N.ltb_spec v 0x10000)]];
    cbn [app utf8Decode].
  - split_ltb. done.
  - split_ltb. rewrite continuation_low by lia. cbn.
    replace ((0xC0 + v / 0x40 - 0xC0) * 0x40 + v mod 0x40) with v by lia. done.
  - split_ltb. rewrite !continuation_low by lia. cbn.
    replace ((0xE0 + v / 0x1000 - 0xE0) * 0x1000 + (v / 0x40) mod 0x40 * 0x40 + v mod 0x40)
      with v by lia. done.
  - split_ltb. rewrite !continuation_low by lia. cbn.
    replace ((0xF0 + v / 0x40000 - 0xF0) * 0x40000 + (v / 0x1000) mod 0x40 * 0x1000
             + (v / 0x40) mod 0x40 * 0x40 + v mod 0x40) with v by lia. done.
Qed.

Lemma utf8Decode_scalars l :
  Forall (fun v => v < 0x110000) l ->
  utf8Decode (flat_map Js.utf8EncodeScalar l) = Some l.
Proof.
  induction 1 as [|v l Hv _ IH]; [done|].
  cbn [flat_map]. by rewrite utf8Decode_scalar, IH.
Qed.

Lemma toScalarValues_well_formed n t :
  (length t <= n)%nat -> well_formed t ->
  Forall (fun v => v < 0x110000) (Js.toScalarValues t)
  /\ flat_map utf16EncodeScalar (Js.toScalarValues t) = t.
Proof.
  revert t. induction n as [|n IH]; intros t Hn [Hu Hw].
  - destruct t; [done|simpl in Hn; lia].
  - destruct t as [|c t]; [done|].
    apply Forall_cons in Hu as [Hc Hu]. cbn [Js.toScalarValues Js.isWellFormed] in *.
    destruct (Js.isHighSurrogate c) eqn:Hh.
    + destruct t as [|d t]; [done|].
      apply andb_true_iff in Hw as [Hd Hw]. rewrite Hd.
      apply Forall_cons in Hu as [Hdu Hu].
      destruct (IH t) as [IH1 IH2]; [simpl in Hn; lia|done|].
      unfold Js.isHighSurrogate in Hh. unfold Js.isLowSurrogate in Hd.
      apply andb_true_iff in Hh as [Hh1 Hh2]. apply andb_true_iff in Hd as [Hd1 Hd2].
      apply N.leb_le in Hh1, Hh2, Hd1, Hd2.
      split.
      * constructor; [lia|done].
      * cbn [flat_map]. rewrite IH2. unfold utf16EncodeScalar.
        destruct (N.ltb_spec (0x10000 + (c - 0xD800) * 0x400 + (d - 0xDC00)) 0x10000); [lia|].
        cbn [app]. f_equal; [lia|]. f_equal. lia.
    + apply andb_true_iff in Hw as [Hl Hw]. apply negb_true_iff in Hl. rewrite Hl.
      destruct (IH t) as [IH1 IH2]; [simpl in Hn; lia|done|].
      split; [constructor; [lia|done]|].
      cbn [flat_map]. rewrite IH2. unfold utf16EncodeScalar.
      by destruct (N.ltb_spec c 0x10000); [|lia].
Qed.

(** A well-formed string is read back from its UTF-8 bytes. *)
Lemma decoded_text_utf8 t : well_formed t -> decoded_text (Js.utf8 t) = Some t.
Proof.
  intros Hw. destruct (toScalarValues_well_formed (length t) t) as [H1 H2]; [done|done|].
  unfold decoded_text, Js.utf8. rewrite utf8Decode_scalars by done. simpl. by rewrite H2.
Qed.

(** ** The exporter *)

Section Exporter.
Import Host.

Implicit Types (h : Host) (text code : JsString).

Lemma new_calls_app h h' l :
  calls h' = calls h ++ l -> new_calls h h' = l.
Proof. intros H. unfold new_calls. rewrite H. by rewrite drop_app_length. Qed.

Lemma fresh_url_unused h : urls h !! fresh (dom (urls h)) = None.
Proof. apply not_elem_of_dom, is_fresh. Qed.

(** Without an anchor the blob is registered and released, nothing
    else happens. *)
Lemma export_to_host_no_anchor h text :
  anchor h = None ->
  export_to_host text h =
    (Ret tt,
     mkHost None (urls h) (saved h) (click_throws h)
       (calls h ++ [NewBlob [text] App.svg_mime;
                    CreateObjectURL (svg_blob text) (fresh (dom (urls h)));
                    RevokeObjectURL (fresh (dom (urls h)))])).
Proof.
  destruct h as [a m sv ct cs]; simpl. intros ->.
  run_host.
  rewrite delete_insert_id by apply (fresh_url_unused (mkHost None m sv ct cs)).
  by rewrite <- !app_assoc.
Qed.

(** With an anchor whose click returns, the file is saved and the URL
    released. *)
Lemma export_to_host_saves h a text :
  anchor h = Some a -> click_throws h = false ->
  export_to_host text h =
    (Ret tt,
     mkHost (Some (mkAnchor (Some (fresh (dom (urls h)))) (Some App.icon_name)))
       (urls h) (saved h ++ [(App.icon_name, svg_blob text)]) false
       (calls h ++ [NewBlob [text] App.svg_mime;
                    CreateObjectURL (svg_blob text) (fresh (dom (urls h)));
                    SetHref (fresh (dom (urls h)));
                    SetDownload App.icon_name;
                    Click;
                    RevokeObjectURL (fresh (dom (urls h)))])).
Proof.
  destruct h as [a0 m sv ct cs]; simpl. intros -> ->.
  run_host.
  rewrite lookup_insert_eq; simpl.
  rewrite delete_insert_id by apply (fresh_url_unused (mkHost (Some a) m sv false cs)).
  by rewrite <- !app_assoc.
Qed.

(** With an anchor whose click throws, the call stops there: the URL
    stays registered. *)
Lemma export_to_host_throws h a text :
  anchor h = Some a -> click_throws h = true ->
  export_to_host text h =
    (Throw HostError,
     mkHost (Some (mkAnchor (Some (fresh (dom (urls h)))) (Some App.icon_name)))
       (<[fresh (dom (urls h)) := svg_blob text]> (urls h)) (saved h) true
       (calls h ++ [NewBlob [text] App.svg_mime;
                    CreateObjectURL (svg_blob text) (fresh (dom (urls h)));
                    SetHref (fresh (dom (urls h)));
                    SetDownload App.icon_name;
                    Click])).
Proof.
  destruct h as [a0 m sv ct cs]; simpl. intros -> ->.
  run_host.
  by rewrite <- !app_assoc.
Qed.

(** [downloadSvg] on a rejected text. *)
Lemma downloadSvg_invalid code (w : App.World) :
  App.invalid code = true ->
  App.downloadSvg code w =
    (Ret tt, App.enqueue (App.SetError App.invalid_message) (App.note_export code w)).
Proof. intros H. unfold App.downloadSvg, bind, modify, App.setError. by rewrite H. Qed.

(** [downloadSvg] on an accepted text. *)
Lemma downloadSvg_valid code (w : App.World) :
  App.invalid code = false ->
  App.downloadSvg code w =
    (fst (export_to_host code (App.host w)),
     App.set_host (snd (export_to_host code (App.host w)))
       (App.enqueue (App.SetError []) (App.note_export code w))).
Proof.
  intros H. destruct w as [st pend dp ex h].
  unfold App.downloadSvg, bind at 1, modify at 1. rewrite H.
  destruct (anchor h) as [a|] eqn:Ha; [destruct (click_throws h) eqn:Hc|].
  - rewrite (export_to_host_throws h a) by done.
    destruct h as [a0 m sv ct cs]; simpl in *; subst.
    unfold App.liftH, App.setError. run_host.
    by rewrite <- !app_assoc.
  - rewrite (export_to_host_saves h a) by done.
    destruct h as [a0 m sv ct cs]; simpl in *; subst.
    unfold App.liftH, App.setError. run_host.
    rewrite lookup_insert_eq; simpl.
    rewrite delete_insert_id by apply (fresh_url_unused (mkHost (Some a) m sv false cs)).
    by rewrite <- !app_assoc.
  - rewrite (export_to_host_no_anchor h) by done.
    destruct h as [a0 m sv ct cs]; simpl in *; subst.
    unfold App.liftH, App.setError. run_host.
    rewrite delete_insert_id by apply (fresh_url_unused (mkHost None m sv ct cs)).
    by rewrite <- !app_assoc.
Qed.

(** The error message once the queue ending in a [setError] is committed. *)
Lemma flush_error_last (w : App.World) pend v :
  App.pending w = pend ++ [App.SetError v] ->
  App.error (App.rendered (App.flush w)) = v.
Proof. intros H. unfold App.flush; simpl. by rewrite H, fold_left_app. Qed.

(** C3 (amended). For every text the validator accepts, when the
    download anchor is mounted, the export gives the text itself, as the
    only part, to one blob of type image/svg+xml, whose bytes are the
    UTF-8 encoding of the text, an unpaired surrogate being encoded as
    U+FFFD: the bytes read back as exactly the text when the text has no
    unpaired surrogate. It registers the blob, names the download
    icon.svg, clicks the anchor exactly once, and the error message is
    empty once committed; when the click returns, the call returns
    normally and the host has saved that blob under icon.svg, the URL
    being released again. *)
Theorem export_succeeds_with_anchor code (w : App.World) a :
  App.isPlausibleSvg code = true ->
  anchor (App.host w) = Some a ->
  let w' := exec (App.downloadSvg code) w in
  let blob := mkBlob (Js.utf8 code) (Js.lit "image/svg+xml") in
  let url := fresh (dom (urls (App.host w))) in
  new_calls (App.host w) (App.host w') =
    [NewBlob [code] (Js.lit "image/svg+xml"); CreateObjectURL blob url; SetHref url;
     SetDownload (Js.lit "icon.svg"); Click]
    ++ (if click_throws (App.host w) then [] else [RevokeObjectURL url])
  /\ (well_formed code -> decoded_text (Js.utf8 code) = Some code)
  /\ App.error (App.rendered (App.flush w')) = []
  /\ (click_throws (App.host w) = false ->
      outcome (App.downloadSvg code) w = Ret tt
      /\ saved (App.host w') = saved (App.host w) ++ [(Js.lit "icon.svg", blob)]
      /\ urls (App.host w') = urls (App.host w)).
Proof.
  intros Hv Ha. apply negb_true_iff in Hv.
  unfold exec, outcome. rewrite (downloadSvg_valid code w Hv).
  destruct (click_throws (App.host w)) eqn:Hc.
  - rewrite (export_to_host_throws _ a) by done. cbn [fst snd].
    split; [by apply new_calls_app|]. split; [apply decoded_text_utf8|].
    split; [|done]. by apply (flush_error_last _ (App.pending w)).
  - rewrite (export_to_host_saves _ a) by done. cbn [fst snd].
    split; [by apply new_calls_app|]. split; [apply decoded_text_utf8|].
    split; [by apply (flush_error_last _ (App.pending w))|done].
Qed.

Lemma export_succeeds_with_anchor_witness :
  App.isPlausibleSvg (Js.lit "<svg><circle/></svg>") = true
  /\ saved (App.host (exec (App.downloadSvg (Js.lit "<svg><circle/></svg>"))
                        (App.mount host_with_anchor)))
     = [(Js.lit "icon.svg",
         mkBlob (Js.utf8 (Js.lit "<svg><circle/></svg>")) (Js.lit "image/svg+xml"))]
  /\ decoded_text (Js.utf8 (Js.lit "<svg><circle/></svg>"))
     = Some (Js.lit "<svg><circle/></svg>").
Proof.
  split; [reflexivity|].
  pose proof (export_succeeds_with_anchor (Js.lit "<svg><circle/></svg>")
                (App.mount host_with_anchor) (mkAnchor None None)
                eq_refl eq_refl) as (_ & Hd & _ & Hs).
  split; [exact (proj1 (proj2 (Hs eq_refl)))|].
  apply Hd. split; [|reflexivity].
  repeat (constructor; [reflexivity|]). constructor.
Defined.

(** C3 as stated fails twice. Without the anchor an accepted text is
    exported with no click and nothing saved; and with the anchor an
    accepted text that holds an unpaired surrogate is saved with U+FFFD
    in its place, so what is saved does not read back as the input. *)
Lemma export_saves_nothing_or_not_verbatim :
  (App.isPlausibleSvg (Js.lit "<svg><circle/></svg>") = true
   /\ outcome (App.downloadSvg (Js.lit "<svg><circle/></svg>"))
        (App.mount host_without_anchor) = Ret tt
   /\ saved (App.host (exec (App.downloadSvg (Js.lit "<svg><circle/></svg>"))
                         (App.mount host_without_anchor))) = []
   /\ Click ∉ calls (App.host (exec (App.downloadSvg (Js.lit "<svg><circle/></svg>"))
                                 (App.mount host_without_anchor))))
  /\ (let text := Js.lit "<svg>" ++ [0xD83D] ++ Js.lit "</svg>" in
      let read := Js.lit "<svg>" ++ [0xFFFD] ++ Js.lit "</svg>" in
      App.isPlausibleSvg text = true
      /\ (exists blob,
            saved (App.host (exec (App.downloadSvg text) (App.mount host_with_anchor)))
            = [(Js.lit "icon.svg", blob)]
            /\ decoded_text (blob_bytes blob) = Some read)
      /\ read <> text).
Proof.
  split.
  - split; [reflexivity|]. split; [reflexivity|]. split; [reflexivity|].
    vm_compute. intros H. repeat (apply elem_of_cons in H as [H|H]; [discriminate H|]).
    by apply elem_of_nil in H.
  - cbv zeta. split; [reflexivity|]. split; [|by vm_compute].
    eexists. split; reflexivity.
Qed.

(** C4. For every text the validator rejects, the export returns at
    the guard: the host is untouched (no blob, no object URL, no click,
    nothing saved), the only state update queued is the error message,
    and the message, once committed, is the non-empty invalid-markup
    message. *)
Theorem export_rejected_does_nothing code (w : App.World) :
  App.isPlausibleSvg code = false ->
  let w' := exec (App.downloadSvg code) w in
  outcome (App.downloadSvg code) w = Ret tt
  /\ App.host w' = App.host w
  /\ new_calls (App.host w) (App.host w') = []
  /\ App.pending w' = App.pending w ++ [App.SetError App.invalid_message]
  /\ App.error (App.rendered (App.flush w')) = App.invalid_message
  /\ App.invalid_message <> [].
Proof.
  intros Hv. apply negb_false_iff in Hv.
  unfold exec, outcome. rewrite (downloadSvg_invalid code w Hv). cbn [fst snd].
  split; [done|]. split; [done|].
  split; [apply new_calls_app; by rewrite app_nil_r|].
  split; [done|]. split; [|done].
  by apply (flush_error_last _ (App.pending w)).
Qed.

Lemma export_rejected_does_nothing_witness :
  App.isPlausibleSvg (Js.lit "not svg") = false
  /\ App.host (exec (App.downloadSvg (Js.lit "not svg")) (App.mount host_with_anchor))
     = host_with_anchor.
Proof.
  split; [reflexivity|].
  apply (export_rejected_does_nothing (Js.lit "not svg") (App.mount host_with_anchor)).
  reflexivity.
Defined.

(** C5 (amended). Whenever a call of the exporter returns normally,
    every object URL it created has been revoked and the registry of
    live URLs is as it was before the call, whether the anchor is
    mounted or not. *)
Theorem url_released_on_normal_return code (w : App.World) :
  outcome (App.downloadSvg code) w = Ret tt ->
  let w' := exec (App.downloadSvg code) w in
  urls (App.host w') = urls (App.host w)
  /\ (forall b u, CreateObjectURL b u ∈ new_calls (App.host w) (App.host w') ->
                  RevokeObjectURL u ∈ new_calls (App.host w) (App.host w')).
Proof.
  unfold exec, outcome. destruct (App.invalid code) eqn:Hv.
  - rewrite (downloadSvg_invalid code w Hv). cbn [fst snd]. intros _.
    split; [done|]. intros b u.
    rewrite (new_calls_app _ _ []) by (by rewrite app_nil_r).
    intros H. by apply elem_of_nil in H.
  - rewrite (downloadSvg_valid code w Hv). cbn [fst snd].
    destruct (anchor (App.host w)) as [a|] eqn:Ha;
      [destruct (click_throws (App.host w)) eqn:Hc|].
    + rewrite (export_to_host_throws _ a) by done. discriminate.
    + rewrite (export_to_host_saves _ a) by done. cbn [fst snd]. intros _.
      split; [done|]. intros b u. erewrite new_calls_app by reflexivity.
      intros H. repeat (apply elem_of_cons in H as [H|H]; [try discriminate H|]).
      * injection H as -> ->. set_solver.
      * by apply elem_of_nil in H.
    + rewrite export_to_host_no_anchor by done. cbn [fst snd]. intros _.
      split; [done|]. intros b u. erewrite new_calls_app by reflexivity.
      intros H. repeat (apply elem_of_cons in H as [H|H]; [try discriminate H|]).
      * injection H as -> ->. set_solver.
      * by apply elem_of_nil in H.
Qed.

Lemma url_released_on_normal_return_witness :
  outcome (App.downloadSvg (Js.lit "<svg/>")) (App.mount host_with_anchor) = Ret tt
  /\ urls (App.host (exec (App.downloadSvg (Js.lit "<svg/>")) (App.mount host_with_anchor)))
     = urls host_with_anchor.
Proof.
  split; [reflexivity|].
  apply (url_released_on_normal_return (Js.lit "<svg/>") (App.mount host_with_anchor)).
  reflexivity.
Defined.

(** C5 as stated fails: when the click throws, the exception leaves
    the exporter before the revocation, and the URL stays registered. *)
Lemma url_leaks_when_click_throws :
  let w' := exec (App.downloadSvg (Js.lit "<svg/>")) (App.mount host_click_throws) in
  let blob := mkBlob (Js.utf8 (Js.lit "<svg/>")) (Js.lit "image/svg+xml") in
  outcome (App.downloadSvg (Js.lit "<svg/>")) (App.mount host_click_throws)
    = Throw HostError
  /\ calls (App.host w') =
       [NewBlob [Js.lit "<svg/>"] (Js.lit "image/svg+xml");
        CreateObjectURL blob 0%nat; SetHref 0%nat;
        SetDownload (Js.lit "icon.svg"); Click]
  /\ urls (App.host w') !! 0%nat = Some blob
  /\ urls (App.host (App.mount host_click_throws)) !! 0%nat = None.
Proof. repeat split; reflexivity. Qed.

(** C10. When the anchor handle is null and the text is accepted, the
    call still takes the success path and returns normally: it clears
    the error message, makes the blob, creates and revokes the object
    URL, and neither clicks nor saves anything. *)
Theorem export_without_anchor code (w : App.World) :
  App.isPlausibleSvg code = true ->
  anchor (App.host w) = None ->
  let w' := exec (App.downloadSvg code) w in
  let blob := mkBlob (Js.utf8 code) (Js.lit "image/svg+xml") in
  let url := fresh (dom (urls (App.host w))) in
  outcome (App.downloadSvg code) w = Ret tt
  /\ App.pending w' = App.pending w ++ [App.SetError []]
  /\ App.error (App.rendered (App.flush w')) = []
  /\ new_calls (App.host w) (App.host w') =
       [NewBlob [code] (Js.lit "image/svg+xml"); CreateObjectURL blob url; RevokeObjectURL url]
  /\ urls (App.host w') = urls (App.host w)
  /\ saved (App.host w') = saved (App.host w)
  /\ anchor (App.host w') = None.
Proof.
  intros Hv Ha. apply negb_true_iff in Hv.
  unfold exec, outcome. rewrite (downloadSvg_valid code w Hv).
  rewrite export_to_host_no_anchor by done. cbn [fst snd].
  split; [done|]. split; [done|].
  split; [by apply (flush_error_last _ (App.pending w))|].
  split; [by apply new_calls_app|done].
Qed.

Lemma export_without_anchor_witness :
  App.isPlausibleSvg (Js.lit "<svg/>") = true
  /\ anchor host_without_anchor = None
  /\ saved (App.host (exec (App.downloadSvg (Js.lit "<svg/>")) (App.mount host_without_anchor)))
     = [].
Proof.
  split; [reflexivity|]. split; [reflexivity|].
  apply (export_without_anchor (Js.lit "<svg/>") (App.mount host_without_anchor));
    reflexivity.
Defined.

End Exporter.

(** ** The component: state, events and the preview *)

Section Component.
Import Host.

Implicit Types (w : App.World) (code clip v : JsString).

(** What an export leaves alone, and what it appends. *)
Lemma downloadSvg_frame code w :
  let w' := exec (App.downloadSvg code) w in
  App.rendered w' = App.rendered w
  /\ App.defaultPrevented w' = App.defaultPrevented w
  /\ App.exports w' = App.exports w ++ [code]
  /\ App.pending w' = App.pending w ++ [App.SetError (export_message code)].
Proof.
  unfold exec, export_message. destruct (App.invalid code) eqn:Hv.
  - by rewrite (downloadSvg_invalid code w Hv).
  - by rewrite (downloadSvg_valid code w Hv).
Qed.

Lemma handlePaste_unfold clip w :
  App.handlePaste clip w =
    App.downloadSvg clip (App.enqueue (App.SetSvgCode clip) (App.set_prevented true w)).
Proof. reflexivity. Qed.

Lemma handle_paste clip sel w :
  App.handle (App.Paste clip sel) w =
    exec (App.handlePaste clip) (App.set_prevented false w).
Proof.
  unfold App.handle. cbv zeta.
  unfold exec at 1. rewrite handlePaste_unfold.
  destruct (downloadSvg_frame clip
              (App.enqueue (App.SetSvgCode clip)
                 (App.set_prevented true (App.set_prevented false w))))
    as (_ & Hp & _).
  unfold exec in Hp. by rewrite Hp.
Qed.

Lemma handlePaste_exports clip w :
  App.exports (exec (App.handlePaste clip) w) = App.exports w ++ [clip].
Proof.
  change (exec (App.handlePaste clip) w)
    with (exec (App.downloadSvg clip)
            (App.enqueue (App.SetSvgCode clip) (App.set_prevented true w))).
  by destruct (downloadSvg_frame clip
                 (App.enqueue (App.SetSvgCode clip) (App.set_prevented true w)))
    as (_ & _ & -> & _).
Qed.

Lemma new_blobs_of_export code w parts type :
  NewBlob parts type ∈ new_calls (App.host w) (App.host (exec (App.downloadSvg code) w)) ->
  parts = [code] /\ type = App.svg_mime.
Proof.
  unfold exec. destruct (App.invalid code) eqn:Hv.
  - rewrite (downloadSvg_invalid code w Hv). cbn [snd].
    rewrite (new_calls_app _ _ []) by (by rewrite app_nil_r).
    intros H. by apply elem_of_nil in H.
  - rewrite (downloadSvg_valid code w Hv). cbn [snd].
    destruct (anchor (App.host w)) as [a|] eqn:Ha;
      [destruct (click_throws (App.host w)) eqn:Hc|].
    + rewrite (export_to_host_throws _ a) by done. cbn [snd].
      erewrite new_calls_app by reflexivity. intros H.
      repeat (apply elem_of_cons in H as [H|H]; [try discriminate H|]);
        [by injection H|by apply elem_of_nil in H].
    + rewrite (export_to_host_saves _ a) by done. cbn [snd].
      erewrite new_calls_app by reflexivity. intros H.
      repeat (apply elem_of_cons in H as [H|H]; [try discriminate H|]);
        [by injection H|by apply elem_of_nil in H].
    + rewrite export_to_host_no_anchor by done. cbn [snd].
      erewrite new_calls_app by reflexivity. intros H.
      repeat (apply elem_of_cons in H as [H|H]; [try discriminate H|]);
        [by injection H|by apply elem_of_nil in H].
Qed.

(** The host after an export depends on the text and the host only. *)
Lemma downloadSvg_host code w1 w2 :
  App.host w1 = App.host w2 ->
  App.host (exec (App.downloadSvg code) w1) = App.host (exec (App.downloadSvg code) w2)
  /\ outcome (App.downloadSvg code) w1 = outcome (App.downloadSvg code) w2.
Proof.
  intros H. unfold exec, outcome. destruct (App.invalid code) eqn:Hv.
  - by rewrite !(downloadSvg_invalid code _ Hv).
  - rewrite !(downloadSvg_valid code _ Hv). cbn [fst snd]. by rewrite H.
Qed.

(** C1. A paste makes exactly one export attempt, and its text is the
    clipboard text of the event: the handler has exported before any
    commit (the rendered state is still the old one when it returns),
    every blob it makes has the clipboard text as its only part, and
    what reaches the host is the same whatever the rendered state and
    the queue of uncommitted updates are. *)
Theorem paste_exports_clipboard_text clip w :
  let w' := exec (App.handlePaste clip) w in
  App.exports w' = App.exports w ++ [clip]
  /\ App.rendered w' = App.rendered w
  /\ (forall parts type,
        NewBlob parts type ∈ new_calls (App.host w) (App.host w') -> parts = [clip])
  /\ (forall st pend dp ex,
        App.host (exec (App.handlePaste clip) (App.mkWorld st pend dp ex (App.host w)))
        = App.host w')
  /\ (forall sel,
        App.exports (App.dispatch (App.Paste clip sel) w) = App.exports w ++ [clip]).
Proof.
  cbv zeta.
  set (w0 := App.enqueue (App.SetSvgCode clip) (App.set_prevented true w)).
  assert (Hw : exec (App.handlePaste clip) w = exec (App.downloadSvg clip) w0) by done.
  destruct (downloadSvg_frame clip w0) as (Hr & _ & He & _).
  rewrite Hw. split; [done|]. split; [done|]. split; [|split].
  - intros parts type Hb. by destruct (new_blobs_of_export clip w0 parts type Hb).
  - intros st pend dp ex.
    change (exec (App.handlePaste clip) (App.mkWorld st pend dp ex (App.host w)))
      with (exec (App.downloadSvg clip)
              (App.enqueue (App.SetSvgCode clip)
                 (App.set_prevented true (App.mkWorld st pend dp ex (App.host w))))).
    by apply (downloadSvg_host clip).
  - intros sel. unfold App.dispatch. rewrite handle_paste.
    change (exec (App.handlePaste clip) (App.set_prevented false w))
      with (exec (App.downloadSvg clip)
              (App.enqueue (App.SetSvgCode clip)
                 (App.set_prevented true (App.set_prevented false w)))).
    set (w1 := App.enqueue _ _).
    destruct (downloadSvg_frame clip w1) as (_ & _ & He1 & _).
    cbn [App.flush App.exports]. by rewrite He1.
Qed.

(** The example of the specification: one attempt, with that text, and
    the state not yet committed. *)
Example paste_rect_exports_once :
  let clip := Js.lit "<svg><rect/></svg>" in
  let w' := exec (App.handlePaste clip) (App.mount host_with_anchor) in
  App.exports w' = [clip]
  /\ saved (App.host w') = [(Js.lit "icon.svg", mkBlob (Js.utf8 clip) (Js.lit "image/svg+xml"))]
  /\ App.svgCode (App.rendered w') = App.sample_icon.
Proof. repeat split; reflexivity. Qed.

(** The error message after an event. *)
Lemma dispatch_error ev w :
  App.error (App.rendered (App.dispatch ev w)) =
    if App.export_fails ev w then App.invalid_message else [].
Proof.
  unfold App.dispatch. destruct ev as [v|clip sel|].
  - unfold App.flush; simpl. by rewrite !fold_left_app.
  - rewrite handle_paste. unfold exec. rewrite handlePaste_unfold.
    set (w1 := App.enqueue _ _).
    destruct (downloadSvg_frame clip w1) as (_ & _ & _ & Hp). unfold exec in Hp.
    rewrite (flush_error_last _ _ _ Hp). reflexivity.
  - unfold App.handle, App.handleManualDownload, exec, bind, gets. cbn [fst snd].
    destruct (downloadSvg_frame (App.svgCode (App.rendered w)) w) as (_ & _ & _ & Hp).
    unfold exec in Hp. rewrite (flush_error_last _ _ _ Hp). reflexivity.
Qed.

Lemma run_snoc evs ev w : App.run (evs ++ [ev]) w = App.dispatch ev (App.run evs w).
Proof. unfold App.run. by rewrite fold_left_app. Qed.

(** C6. In every state reached from the first render, a non-empty
    error message means that the last event was an export attempt the
    guard rejected; every edit leaves the message empty whatever the
    new text is, and so does every export of an accepted text. *)
Theorem error_only_after_failed_export :
  (forall h evs,
     App.error (App.rendered (App.run evs (App.mount h))) <> [] ->
     exists evs' ev,
       evs = evs' ++ [ev] /\ App.export_fails ev (App.run evs' (App.mount h)) = true)
  /\ (forall w v, App.error (App.rendered (App.dispatch (App.Change v) w)) = [])
  /\ (forall w clip sel,
        App.isPlausibleSvg clip = true ->
        App.error (App.rendered (App.dispatch (App.Paste clip sel) w)) = [])
  /\ (forall w,
        App.isPlausibleSvg (App.svgCode (App.rendered w)) = true ->
        App.error (App.rendered (App.dispatch App.ClickButton w)) = []).
Proof.
  split; [|split; [|split]].
  - intros h evs. destruct evs as [|ev evs _] using rev_ind; [done|].
    rewrite run_snoc, dispatch_error.
    destruct (App.export_fails ev _) eqn:Hf; [|done].
    intros _. by exists evs, ev.
  - intros w v. by rewrite dispatch_error.
  - intros w clip sel Hv. apply negb_true_iff in Hv.
    rewrite dispatch_error. simpl. by rewrite Hv.
  - intros w Hv. apply negb_true_iff in Hv.
    rewrite dispatch_error. simpl. by rewrite Hv.
Qed.

Lemma error_only_after_failed_export_witness :
  let evs := [App.Change (Js.lit "<svg/>");
              App.Paste (Js.lit "not svg") (App.mkSelection 0 0)] in
  App.error (App.rendered (App.run evs (App.mount host_with_anchor))) <> []
  /\ exists evs' ev,
       evs = evs' ++ [ev]
       /\ App.export_fails ev (App.run evs' (App.mount host_with_anchor)) = true.
Proof.
  split; [by vm_compute|].
  apply (proj1 error_only_after_failed_export host_with_anchor). by vm_compute.
Defined.

Lemma paste_exports_clipboard_text_witness :
  let clip := Js.lit "<svg><rect/></svg>" in
  let w := App.mount host_with_anchor in
  NewBlob [clip] (Js.lit "image/svg+xml")
    ∈ new_calls (App.host w) (App.host (exec (App.handlePaste clip) w))
  /\ [clip] = [clip].
Proof.
  cbv zeta.
  assert (H : NewBlob [Js.lit "<svg><rect/></svg>"] (Js.lit "image/svg+xml")
              ∈ new_calls (App.host (App.mount host_with_anchor))
                  (App.host (exec (App.handlePaste (Js.lit "<svg><rect/></svg>"))
                               (App.mount host_with_anchor)))).
  { vm_compute. apply list_elem_of_here. }
  split; [exact H|].
  exact (proj1 (proj2 (proj2 (paste_exports_clipboard_text
                                (Js.lit "<svg><rect/></svg>")
                                (App.mount host_with_anchor)))) _ _ H).
Defined.

Lemma flush_svgCode_after_export code w :
  App.svgCode (App.rendered (App.flush (exec (App.downloadSvg code) w)))
  = App.svgCode (App.rendered (App.flush w)).
Proof.
  destruct (downloadSvg_frame code w) as (Hr & _ & _ & Hp).
  unfold App.flush; cbn [App.rendered]. by rewrite Hp, Hr, fold_left_app.
Qed.

(** C7. An export attempt, accepted or rejected, changes neither the
    rendered markup nor the markup of the next commit, so the preview
    is the same before and after it; the preview is the markup itself,
    whatever the markup is. *)
Theorem export_leaves_markup_and_preview code w :
  App.rendered (exec (App.downloadSvg code) w) = App.rendered w
  /\ App.svgCode (App.rendered (App.flush (exec (App.downloadSvg code) w)))
     = App.svgCode (App.rendered (App.flush w))
  /\ App.preview_html (App.render (App.rendered (App.flush (exec (App.downloadSvg code) w))))
     = App.preview_html (App.render (App.rendered (App.flush w)))
  /\ App.preview_html (App.render (App.rendered (App.dispatch App.ClickButton w)))
     = App.preview_html (App.render (App.rendered (App.flush w)))
  /\ (forall st, App.preview_html (App.render st) = App.svgCode st).
Proof.
  split; [apply downloadSvg_frame|]. split; [apply flush_svgCode_after_export|].
  split; [apply flush_svgCode_after_export|]. split; [|done].
  apply (flush_svgCode_after_export (App.svgCode (App.rendered w)) w).
Qed.

(** The example of the specification: the preview of a markup that is
    not valid is unchanged by a failed click on the button. *)
Example preview_after_failed_export :
  let w := App.dispatch (App.Change (Js.lit "not svg")) (App.mount host_with_anchor) in
  App.export_fails App.ClickButton w = true
  /\ App.render (App.rendered w)
     = App.mkView (Js.lit "not svg") None (Js.lit "not svg")
  /\ App.render (App.rendered (App.dispatch App.ClickButton w))
     = App.mkView (Js.lit "not svg") (Some App.invalid_message) (Js.lit "not svg").
Proof. repeat split; reflexivity. Qed.

(** C8. The markup starts as the sample icon; an edit replaces it by
    the new value of the textarea and a paste by the clipboard text,
    whatever the previous markup and the selection were: the default
    insertion of the paste never takes place. *)
Theorem markup_replaced_wholesale :
  (forall h, App.svgCode (App.rendered (App.mount h)) = App.sample_icon)
  /\ (forall w v, App.svgCode (App.rendered (App.dispatch (App.Change v) w)) = v)
  /\ (forall w clip sel,
        App.svgCode (App.rendered (App.dispatch (App.Paste clip sel) w)) = clip
        /\ App.defaultPrevented (App.dispatch (App.Paste clip sel) w) = true).
Proof.
  split; [done|]. split.
  - intros w v. unfold App.dispatch, App.flush; simpl. by rewrite fold_left_app.
  - intros w clip sel. unfold App.dispatch. rewrite handle_paste.
    change (exec (App.handlePaste clip) (App.set_prevented false w))
      with (exec (App.downloadSvg clip)
              (App.enqueue (App.SetSvgCode clip)
                 (App.set_prevented true (App.set_prevented false w)))).
    set (w1 := App.enqueue _ _).
    destruct (downloadSvg_frame clip w1) as (Hr & Hd & _ & Hp).
    split; [|cbn [App.flush App.defaultPrevented]; by rewrite Hd].
    unfold App.flush; cbn [App.rendered]. rewrite Hp, Hr.
    unfold w1; simpl. by rewrite !fold_left_app.
Qed.

(** The sample icon is what the source holds, and a paste in the
    middle of it leaves only the clipboard text. *)
Example paste_in_the_middle :
  let w := App.dispatch (App.Paste (Js.lit "<svg/>") (App.mkSelection 5 5))
             (App.mount host_with_anchor) in
  length App.sample_icon = 300%nat
  /\ App.isPlausibleSvg App.sample_icon = true
  /\ App.svgCode (App.rendered w) = Js.lit "<svg/>"
  /\ App.insertText (Js.lit "<svg xmlns") (App.mkSelection 5 5) (Js.lit "<svg/>")
     = Js.lit "<svg <svg/>xmlns".
Proof. repeat split; reflexivity. Qed.

End Component.

(** ** The deferred revision against the direct one *)

Section DeferredVariant.
Import Host.

Implicit Types (cl : Deferred.State) (wA : Deferred.World) (wB : App.World).

(** [handleDownload] on a render whose markup the guard accepts. *)
Lemma handleDownload_valid cl wA :
  Deferred.invalid (Deferred.svgCode cl) = false ->
  Deferred.handleDownload cl wA =
    (fst (export_to_host (Deferred.svgCode cl) (Deferred.host wA)),
     Deferred.set_host (snd (export_to_host (Deferred.svgCode cl) (Deferred.host wA)))
       (Deferred.enqueue (Deferred.SetError [])
          (Deferred.note_export (Deferred.svgCode cl) wA))).
Proof.
  intros H. destruct wA as [st pend ts ex h].
  unfold Deferred.handleDownload, bind at 1, modify at 1. rewrite H.
  destruct (anchor h) as [a|] eqn:Ha; [destruct (click_throws h) eqn:Hc|].
  - rewrite (export_to_host_throws h a) by done.
    destruct h as [a0 m sv ct cs]; simpl in *; subst.
    unfold Deferred.liftH, Deferred.setError. run_host.
    by rewrite <- !app_assoc.
  - rewrite (export_to_host_saves h a) by done.
    destruct h as [a0 m sv ct cs]; simpl in *; subst.
    unfold Deferred.liftH, Deferred.setError. run_host.
    rewrite lookup_insert_eq; simpl.
    rewrite delete_insert_id by apply (fresh_url_unused (mkHost (Some a) m sv false cs)).
    by rewrite <- !app_assoc.
  - rewrite (export_to_host_no_anchor h) by done.
    destruct h as [a0 m sv ct cs]; simpl in *; subst.
    unfold Deferred.liftH, Deferred.setError. run_host.
    rewrite delete_insert_id by apply (fresh_url_unused (mkHost None m sv ct cs)).
    by rewrite <- !app_assoc.
Qed.

(** The callback of the timer, on such a render: the export, then the
    reset of the flag unless the export threw. *)
Lemma timeoutCallback_valid cl wA :
  App.isPlausibleSvg (Deferred.svgCode cl) = true ->
  let r := export_to_host (Deferred.svgCode cl) (Deferred.host wA) in
  Deferred.host (exec (Deferred.timeoutCallback cl) wA) = snd r
  /\ outcome (Deferred.timeoutCallback cl) wA = fst r
  /\ Deferred.exports (exec (Deferred.timeoutCallback cl) wA)
     = Deferred.exports wA ++ [Deferred.svgCode cl].
Proof.
  intros Hv. rewrite App_isPlausibleSvg_startsWith in Hv. pose proof Hv as Hs.
  rewrite <- Deferred_isPlausibleSvg_startsWith in Hv. apply negb_true_iff in Hv.
  unfold exec, outcome, Deferred.timeoutCallback. rewrite Hs.
  unfold bind. rewrite (handleDownload_valid cl wA Hv).
  by destruct (export_to_host _ _) as [[[]|e] h'].
Qed.

(** What does hold of one callback. When the render whose callback the
    timer runs holds the pasted text as its markup, and the validator
    accepts that text, the deferred callback and the direct paste
    handler give the exporter the same text: each makes one export
    attempt, on the pasted text, and from equal hosts they end with
    equal hosts (the same blob, the same calls, the same saved file) and
    the same outcome. *)
Theorem deferred_callback_matches_direct_paste clip cl wA wB :
  App.isPlausibleSvg clip = true ->
  Deferred.svgCode cl = clip ->
  Deferred.host wA = App.host wB ->
  let wA' := exec (Deferred.timeoutCallback cl) wA in
  let wB' := exec (App.handlePaste clip) wB in
  Deferred.exports wA' = Deferred.exports wA ++ [clip]
  /\ App.exports wB' = App.exports wB ++ [clip]
  /\ Deferred.host wA' = App.host wB'
  /\ outcome (Deferred.timeoutCallback cl) wA = outcome (App.handlePaste clip) wB.
Proof.
  intros Hv <- Hh. cbv zeta.
  destruct (timeoutCallback_valid cl wA Hv) as (HA1 & HA2 & HA3).
  split; [done|]. split; [apply handlePaste_exports|].
  rewrite HA1, HA2, Hh.
  apply negb_true_iff in Hv.
  unfold exec, outcome. rewrite !handlePaste_unfold.
  by rewrite (downloadSvg_valid _ _ Hv).
Qed.

Lemma deferred_callback_matches_direct_paste_witness :
  let clip := Js.lit "<svg><rect/></svg>" in
  let cl := Deferred.mkState clip [] true in
  App.isPlausibleSvg clip = true
  /\ Deferred.host (exec (Deferred.timeoutCallback cl) (Deferred.mount host_with_anchor))
     = App.host (exec (App.handlePaste clip) (App.mount host_with_anchor)).
Proof.
  split; [reflexivity|].
  apply (deferred_callback_matches_direct_paste (Js.lit "<svg><rect/></svg>")
           (Deferred.mkState (Js.lit "<svg><rect/></svg>") [] true)
           (Deferred.mount host_with_anchor) (App.mount host_with_anchor));
    reflexivity.
Defined.

(** C9. The deferred revision does not pass the exporter what the
    direct one passes, even when the pasted text is committed before any
    deferred check runs. On a paste of an accepted text over the whole
    sample icon, the markup is the pasted text as soon as the paste is
    dispatched, with two callbacks pending and nothing exported yet: the
    first callback is the closure of the render that only had the flag,
    so it exports the sample icon, and the second exports the pasted
    text. The direct revision exports the pasted text, once. *)
Theorem deferred_paste_exports_stale_markup_first :
  let clip := Js.lit "<svg><rect/></svg>" in
  let sel := App.mkSelection 0 300 in
  let wA1 := Deferred.dispatch (Deferred.Paste clip sel) (Deferred.mount host_with_anchor) in
  let wA3 := Deferred.run [Deferred.TimerFires; Deferred.TimerFires] wA1 in
  let wB := App.dispatch (App.Paste clip sel) (App.mount host_with_anchor) in
  App.isPlausibleSvg clip = true
  /\ Deferred.svgCode (Deferred.rendered wA1) = clip
  /\ Deferred.pending wA1 = []
  /\ Deferred.exports wA1 = []
  /\ map (fun t => Deferred.svgCode (Deferred.closure t)) (Deferred.timers wA1)
     = [App.sample_icon; clip]
  /\ Deferred.exports wA3 = [App.sample_icon; clip]
  /\ saved (Deferred.host wA3)
     = [(Js.lit "icon.svg", svg_blob App.sample_icon); (Js.lit "icon.svg", svg_blob clip)]
  /\ App.exports wB = [clip]
  /\ saved (App.host wB) = [(Js.lit "icon.svg", svg_blob clip)].
Proof. repeat split; reflexivity. Qed.

(** The same run, read off the timers. *)
Example deferred_paste_runs :
  let clip := Js.lit "<svg><rect/></svg>" in
  let w1 := Deferred.dispatch (Deferred.Paste clip (App.mkSelection 0 300))
              (Deferred.mount host_with_anchor) in
  let w3 := Deferred.run [Deferred.TimerFires; Deferred.TimerFires] w1 in
  map (fun t => Deferred.svgCode (Deferred.closure t)) (Deferred.timers w1)
    = [App.sample_icon; clip]
  /\ Deferred.exports w3 = [App.sample_icon; clip]
  /\ Deferred.timers w3 = [].
Proof. repeat split; reflexivity. Qed.

End DeferredVariant.

(** ** Whole runs of the component *)

Section Runs.
Import Host.

Implicit Types (w : App.World) (h : Host) (code clip v : JsString).

Lemma downloadSvg_host_after code w :
  App.host (exec (App.downloadSvg code) w) = host_after_export code (App.host w).
Proof.
  unfold exec, host_after_export. destruct (App.invalid code) eqn:Hv.
  - by rewrite (downloadSvg_invalid code w Hv).
  - by rewrite (downloadSvg_valid code w Hv).
Qed.

Lemma handleManualDownload_unfold w :
  App.handleManualDownload w = App.downloadSvg (App.svgCode (App.rendered w)) w.
Proof. reflexivity. Qed.

(** What one event does to the host and to the log of export attempts. *)
Lemma dispatch_effects ev w :
  App.host (App.dispatch ev w)
  = match export_text ev w with
    | Some code => host_after_export code (App.host w)
    | None => App.host w
    end
  /\ App.exports (App.dispatch ev w)
     = App.exports w ++ match export_text ev w with Some code => [code] | None => [] end.
Proof.
  unfold App.dispatch. destruct ev as [v|clip sel|]; cbn [export_text].
  - split; [done|]. by rewrite app_nil_r.
  - rewrite handle_paste.
    change (exec (App.handlePaste clip) (App.set_prevented false w))
      with (exec (App.downloadSvg clip)
              (App.enqueue (App.SetSvgCode clip)
                 (App.set_prevented true (App.set_prevented false w)))).
    set (w1 := App.enqueue _ _).
    destruct (downloadSvg_frame clip w1) as (_ & _ & He & _).
    cbn [App.flush App.host App.exports]. split; [|done].
    by rewrite downloadSvg_host_after.
  - unfold App.handle, exec. rewrite handleManualDownload_unfold.
    destruct (downloadSvg_frame (App.svgCode (App.rendered w)) w) as (_ & _ & He & _).
    cbn [App.flush App.host App.exports]. split; [|done].
    apply downloadSvg_host_after.
Qed.

Lemma run_cons ev evs w : App.run (ev :: evs) w = App.run evs (App.dispatch ev w).
Proof. reflexivity. Qed.

(** What an export leaves of the host: the switch of the click and
    whether the anchor is mounted; the files it adds are SVG files; and
    when the click does not throw the registry of URLs is unchanged. *)
Lemma host_after_export_facts code h :
  click_throws (host_after_export code h) = click_throws h
  /\ (is_Some (anchor (host_after_export code h)) <-> is_Some (anchor h))
  /\ (exists l, saved (host_after_export code h) = saved h ++ l /\ Forall svg_file l)
  /\ (click_throws h = false -> urls (host_after_export code h) = urls h).
Proof.
  unfold host_after_export. destruct (App.invalid code) eqn:Hv.
  { split; [done|]. split; [done|]. split; [|done].
    exists []. by rewrite app_nil_r. }
  assert (Hf : svg_file (App.icon_name, svg_blob code)).
  { split; [done|]. split; [done|]. exists code. split; [done|].
    unfold App.isPlausibleSvg. by rewrite Hv. }
  destruct (anchor h) as [a|] eqn:Ha; [destruct (click_throws h) eqn:Hc|].
  - rewrite (export_to_host_throws h a) by done. cbn [snd click_throws anchor saved urls].
    split; [done|]. split; [by split; eauto|]. split; [|done].
    exists []. by rewrite app_nil_r.
  - rewrite (export_to_host_saves h a) by done. cbn [snd click_throws anchor saved urls].
    split; [done|]. split; [by split; eauto|]. split; [|done].
    exists [(App.icon_name, svg_blob code)]. split; [done|]. by constructor.
  - rewrite (export_to_host_no_anchor h) by done. cbn [snd click_throws anchor saved urls].
    split; [done|]. split; [by split; intros []|]. split; [|done].
    exists []. by rewrite app_nil_r.
Qed.

Lemma dispatch_host_facts ev w :
  click_throws (App.host (App.dispatch ev w)) = click_throws (App.host w)
  /\ (is_Some (anchor (App.host (App.dispatch ev w))) <-> is_Some (anchor (App.host w)))
  /\ (exists l, saved (App.host (App.dispatch ev w)) = saved (App.host w) ++ l
                /\ Forall svg_file l)
  /\ (click_throws (App.host w) = false ->
      urls (App.host (App.dispatch ev w)) = urls (App.host w)).
Proof.
  rewrite (proj1 (dispatch_effects ev w)).
  destruct (export_text ev w) as [code|]; [apply host_after_export_facts|].
  split; [done|]. split; [done|]. split; [|done].
  exists []. by rewrite app_nil_r.
Qed.

(** X1. Over any sequence of events, on a host whose click does not
    throw, the registry of object URLs ends as it started: no run of the
    component leaks an object URL; and no event changes whether the click
    throws or whether the anchor is mounted. *)
Theorem run_keeps_url_registry evs w :
  click_throws (App.host w) = false ->
  urls (App.host (App.run evs w)) = urls (App.host w)
  /\ click_throws (App.host (App.run evs w)) = false
  /\ (is_Some (anchor (App.host (App.run evs w))) <-> is_Some (anchor (App.host w))).
Proof.
  revert w. induction evs as [|ev evs IH]; intros w Hc; [done|].
  rewrite run_cons.
  destruct (dispatch_host_facts ev w) as (Hc' & Ha & _ & Hu).
  rewrite Hc in Hc'. destruct (IH _ Hc') as (IHu & IHc & IHa).
  split; [by rewrite IHu, Hu|]. split; [done|]. by rewrite IHa.
Qed.

Lemma run_keeps_url_registry_witness :
  let evs := [App.Paste (Js.lit "<svg/>") (App.mkSelection 0 0);
              App.Change (Js.lit "not svg"); App.ClickButton;
              App.Change (Js.lit " <svg><circle/></svg>"); App.ClickButton] in
  click_throws (App.host (App.mount host_with_anchor)) = false
  /\ urls (App.host (App.run evs (App.mount host_with_anchor))) = ∅.
Proof.
  split; [reflexivity|].
  apply (run_keeps_url_registry _ (App.mount host_with_anchor)). reflexivity.
Defined.

(** X2. Over any sequence of events the files the host has saved only
    grow, and every file added is named icon.svg, has the SVG MIME type
    and consists of one text that the validator accepts: the component
    never saves a text its guard rejects. *)
Theorem run_saves_only_accepted_svg evs w :
  exists l, saved (App.host (App.run evs w)) = saved (App.host w) ++ l
            /\ Forall svg_file l.
Proof.
  revert w. induction evs as [|ev evs IH]; intros w.
  - exists []. by rewrite app_nil_r.
  - rewrite run_cons.
    destruct (dispatch_host_facts ev w) as (_ & _ & (l1 & H1 & F1) & _).
    destruct (IH (App.dispatch ev w)) as (l2 & H2 & F2).
    exists (l1 ++ l2). split; [by rewrite H2, H1, app_assoc|by apply Forall_app].
Qed.

(** X3. Every paste and every click on the button makes exactly one
    export attempt and an edit makes none: over any sequence of events
    the log of attempts grows by the number of pastes and clicks. *)
Theorem run_counts_export_attempts evs w :
  length (App.exports (App.run evs w))
  = (length (App.exports w) + length (filter (fun ev => is_export_event ev = true) evs))%nat.
Proof.
  revert w. induction evs as [|ev evs IH]; intros w.
  - cbn. lia.
  - rewrite run_cons, IH, (proj2 (dispatch_effects ev w)), length_app, filter_cons.
    destruct ev; cbn; case_decide; try done; simpl; lia.
Qed.

End Runs.

(** ** The guard, without [trim] *)

Section Guard.

Implicit Types (s t p l : JsString).

Lemma trimStart_app_keep s t :
  Js.trimStart s <> [] -> Js.trimStart (s ++ t) = Js.trimStart s ++ t.
Proof.
  induction s as [|a s IH]; simpl; [done|].
  destruct (Js.isWhiteSpace a); [exact IH|done].
Qed.

(** Trimming the end leaves a prefix that ends in a character other than
    whitespace. *)
Lemma trimEnd_app_keep p s :
  (forall c, last p = Some c -> Js.isWhiteSpace c = false) ->
  p <> [] ->
  Js.trimEnd (p ++ s) = p ++ Js.trimEnd s.
Proof.
  intros Hl Hp. unfold Js.trimEnd. rewrite rev_app_distr.
  destruct (Js.trimStart (rev s)) as [|c u] eqn:Hs.
  - destruct (trimStart_split (rev s)) as (l & Hr & Hws & _).
    rewrite Hs, app_nil_r in Hr. rewrite Hr, trimStart_app_ws by done.
    rewrite trimStart_id; [by rewrite rev_involutive, app_nil_r|].
    intros c. rewrite head_rev. apply Hl.
  - rewrite trimStart_app_keep by (by rewrite Hs).
    by rewrite Hs, rev_app_distr, rev_involutive.
Qed.

(** X4. The guard lets a text through exactly when the text is some
    whitespace followed by the literal [<svg] followed by anything at
    all: nothing after the four characters is looked at. *)
Theorem validator_accepts_iff_padded_prefix t :
  App.isPlausibleSvg t = true
  <-> exists l rest,
        Forall (fun c => Js.isWhiteSpace c = true) l /\ t = l ++ Js.lit "<svg" ++ rest.
Proof.
  rewrite App_isPlausibleSvg_startsWith, startsWith_prefix. split.
  - intros (rest & Ht).
    destruct (trim_stripped t) as ((l & r & Hd & Hl & _) & _).
    exists l, (rest ++ r). split; [done|].
    rewrite Hd at 1. rewrite Ht. by rewrite <- !app_assoc.
  - intros (l & rest & Hl & ->).
    exists (Js.trimEnd rest). unfold Js.trim.
    rewrite trimStart_app_ws by done.
    rewrite trimStart_id by (by intros c [= <-]).
    apply trimEnd_app_keep; [by intros c [= <-]|done].
Qed.

End Guard.

(** ** Edits, the button and the view *)

Section EditAndView.
Import Host.

Implicit Types (w : App.World) (v : JsString).

(** X5. An edit followed by a click on the button exports the edited
    text: when the validator accepts it, the anchor is mounted and the
    click returns, the one export attempt is on that text, the host
    saves the UTF-8 bytes of that text (an unpaired surrogate as U+FFFD)
    as icon.svg, which read back as the text when it is well formed,
    the markup is the text, no error is shown and no object URL is left
    registered. *)
Theorem edit_then_download_saves_edit v w a :
  App.isPlausibleSvg v = true ->
  anchor (App.host w) = Some a ->
  click_throws (App.host w) = false ->
  let w' := App.run [App.Change v; App.ClickButton] w in
  saved (App.host w')
  = saved (App.host w) ++ [(Js.lit "icon.svg", mkBlob (Js.utf8 v) (Js.lit "image/svg+xml"))]
  /\ (well_formed v -> decoded_text (Js.utf8 v) = Some v)
  /\ App.exports w' = App.exports w ++ [v]
  /\ App.svgCode (App.rendered w') = v
  /\ App.error (App.rendered w') = []
  /\ urls (App.host w') = urls (App.host w).
Proof.
  intros Hv Ha Hc. cbv zeta. unfold App.run; cbn [fold_left].
  set (w1 := App.dispatch (App.Change v) w).
  assert (H1 : App.svgCode (App.rendered w1) = v).
  { unfold w1, App.dispatch, App.flush; simpl. by rewrite fold_left_app. }
  assert (Hh : App.host w1 = App.host w) by done.
  assert (He : App.exports w1 = App.exports w) by done.
  destruct (dispatch_effects App.ClickButton w1) as (Hhost & Hexp).
  cbn [export_text] in Hhost, Hexp. rewrite H1, Hh in Hhost. rewrite H1, He in Hexp.
  rewrite Hhost, Hexp. unfold host_after_export.
  apply negb_true_iff in Hv. rewrite Hv.
  rewrite (export_to_host_saves _ a) by done. cbn [snd saved urls].
  split; [done|]. split; [apply decoded_text_utf8|]. split; [done|].
  split.
  - unfold App.dispatch, App.handle, exec. rewrite handleManualDownload_unfold.
    fold (exec (App.downloadSvg (App.svgCode (App.rendered w1))) w1).
    by rewrite flush_svgCode_after_export.
  - split; [|done]. rewrite dispatch_error. cbn [App.export_fails]. by rewrite H1, Hv.
Qed.

(** X10. What the user sees after an event: the error paragraph is
    rendered, with the invalid-markup message, exactly when the event
    was an export attempt the guard rejected, and is not rendered
    otherwise. *)
Theorem view_after_event ev w :
  App.error_paragraph (App.render (App.rendered (App.dispatch ev w)))
  = (if App.export_fails ev w then Some App.invalid_message else None).
Proof.
  unfold App.render; cbn [App.error_paragraph].
  rewrite dispatch_error. by destruct (App.export_fails ev w).
Qed.

(** X11. After an export that saved a file, the anchor keeps the object
    URL as its [href] and icon.svg as its [download], but the URL has
    been revoked: activating the anchor again, as it is, saves nothing. *)
Theorem anchor_dangles_after_export v w a :
  App.isPlausibleSvg v = true ->
  anchor (App.host w) = Some a ->
  click_throws (App.host w) = false ->
  let h' := App.host (exec (App.downloadSvg v) w) in
  let url := fresh (dom (urls (App.host w))) in
  anchor h' = Some (mkAnchor (Some url) (Some (Js.lit "icon.svg")))
  /\ urls h' !! url = None
  /\ activation h' (mkAnchor (Some url) (Some (Js.lit "icon.svg"))) = None.
Proof.
  intros Hv Ha Hc. cbv zeta. apply negb_true_iff in Hv.
  unfold exec. rewrite (downloadSvg_valid v w Hv).
  rewrite (export_to_host_saves _ a) by done. cbn [snd App.host App.set_host anchor urls].
  split; [done|].
  assert (Hu : urls (App.host w) !! fresh (dom (urls (App.host w))) = None)
    by apply fresh_url_unused.
  split; [done|]. unfold activation; simpl. by rewrite Hu.
Qed.

Lemma anchor_dangles_after_export_witness :
  App.isPlausibleSvg (Js.lit "<svg/>") = true
  /\ anchor (App.host (exec (App.downloadSvg (Js.lit "<svg/>")) (App.mount host_with_anchor)))
     = Some (mkAnchor (Some 0%nat) (Some (Js.lit "icon.svg"))).
Proof.
  split; [reflexivity|].
  apply (anchor_dangles_after_export (Js.lit "<svg/>") (App.mount host_with_anchor)
           (mkAnchor None None));
    reflexivity.
Defined.

Lemma edit_then_download_saves_edit_witness :
  App.isPlausibleSvg (Js.lit "<svg><circle/></svg>") = true
  /\ saved (App.host (App.run [App.Change (Js.lit "<svg><circle/></svg>"); App.ClickButton]
                        (App.mount host_with_anchor)))
     = [(Js.lit "icon.svg", mkBlob (Js.utf8 (Js.lit "<svg><circle/></svg>")) (Js.lit "image/svg+xml"))].
Proof.
  split; [reflexivity|].
  apply (edit_then_download_saves_edit (Js.lit "<svg><circle/></svg>")
           (App.mount host_with_anchor) (mkAnchor None None));
    reflexivity.
Defined.

End EditAndView.

(** ** More on the deferred revision *)

Section DeferredRuns.
Import Host.

Implicit Types (cl : Deferred.State) (wA : Deferred.World) (wB : App.World).

Lemma handleDownload_invalid cl wA :
  Deferred.invalid (Deferred.svgCode cl) = true ->
  Deferred.handleDownload cl wA =
    (Ret tt, Deferred.enqueue (Deferred.SetError Deferred.invalid_message)
               (Deferred.note_export (Deferred.svgCode cl) wA)).
Proof.
  intros H. unfold Deferred.handleDownload, bind, modify, Deferred.setError.
  by rewrite H.
Qed.

Lemma Deferred_invalid_App_invalid (t : JsString) : Deferred.invalid t = App.invalid t.
Proof.
  pose proof (Deferred_isPlausibleSvg_startsWith t) as HD.
  pose proof (App_isPlausibleSvg_startsWith t) as HA.
  unfold Deferred.isPlausibleSvg in HD. unfold App.isPlausibleSvg in HA.
  destruct (Deferred.invalid t), (App.invalid t); simpl in *; congruence.
Qed.

(** X6. The button of the deferred revision and the exporter of the
    direct one do the same to the host on every markup, accepted or not:
    from equal hosts, [handleDownload] of a render and [downloadSvg] on
    the markup of that render end with equal hosts and the same outcome,
    each after one export attempt on that markup. *)
Theorem deferred_button_matches_direct_export cl wA wB :
  Deferred.host wA = App.host wB ->
  let code := Deferred.svgCode cl in
  Deferred.host (exec (Deferred.handleDownload cl) wA)
  = App.host (exec (App.downloadSvg code) wB)
  /\ outcome (Deferred.handleDownload cl) wA = outcome (App.downloadSvg code) wB
  /\ Deferred.exports (exec (Deferred.handleDownload cl) wA) = Deferred.exports wA ++ [code]
  /\ App.exports (exec (App.downloadSvg code) wB) = App.exports wB ++ [code].
Proof.
  intros Hh. cbv zeta. unfold exec, outcome.
  destruct (App.invalid (Deferred.svgCode cl)) eqn:Hv.
  - rewrite (downloadSvg_invalid _ wB Hv).
    rewrite <- Deferred_invalid_App_invalid in Hv.
    by rewrite (handleDownload_invalid cl wA Hv).
  - rewrite (downloadSvg_valid _ wB Hv).
    rewrite <- Deferred_invalid_App_invalid in Hv.
    rewrite (handleDownload_valid cl wA Hv). cbn [fst snd].
    by rewrite Hh.
Qed.

Lemma deferred_button_matches_direct_export_witness :
  let cl := Deferred.mkState (Js.lit "not svg") [] false in
  Deferred.host (Deferred.mount host_with_anchor) = App.host (App.mount host_with_anchor)
  /\ Deferred.host (exec (Deferred.handleDownload cl) (Deferred.mount host_with_anchor))
     = App.host (exec (App.downloadSvg (Js.lit "not svg")) (App.mount host_with_anchor)).
Proof.
  split; [reflexivity|].
  apply (deferred_button_matches_direct_export
           (Deferred.mkState (Js.lit "not svg") [] false)
           (Deferred.mount host_with_anchor) (App.mount host_with_anchor)).
  reflexivity.
Defined.

(** X7. When the render whose callback the timer runs holds a markup
    the validator rejects, the callback makes no export attempt and no
    host call: it only queues the pasted-content message and the reset
    of the flag, and returns normally. *)
Theorem deferred_callback_rejected cl wA :
  App.isPlausibleSvg (Deferred.svgCode cl) = false ->
  let wA' := exec (Deferred.timeoutCallback cl) wA in
  outcome (Deferred.timeoutCallback cl) wA = Ret tt
  /\ Deferred.host wA' = Deferred.host wA
  /\ Deferred.exports wA' = Deferred.exports wA
  /\ Deferred.pending wA'
     = Deferred.pending wA
       ++ [Deferred.SetError Deferred.pasted_invalid_message;
           Deferred.SetDownloadOnPaste false]
  /\ Deferred.rendered (Deferred.flush wA')
     = Deferred.mkState
         (Deferred.svgCode (Deferred.rendered (Deferred.flush wA)))
         Deferred.pasted_invalid_message false.
Proof.
  intros Hv. rewrite App_isPlausibleSvg_startsWith in Hv.
  unfold exec, outcome, Deferred.timeoutCallback. rewrite Hv.
  unfold bind, Deferred.setError, Deferred.setDownloadOnPaste, modify. cbn [fst snd].
  split; [done|]. split; [done|]. split; [done|]. split.
  - unfold Deferred.enqueue; simpl. by rewrite <- app_assoc.
  - unfold Deferred.flush, Deferred.enqueue; simpl. by rewrite !fold_left_app.
Qed.

Lemma deferred_callback_rejected_witness :
  let cl := Deferred.mkState (Js.lit "hello") [] true in
  App.isPlausibleSvg (Deferred.svgCode cl) = false
  /\ Deferred.host (exec (Deferred.timeoutCallback cl) (Deferred.mount host_with_anchor))
     = host_with_anchor.
Proof.
  split; [reflexivity|].
  apply (deferred_callback_rejected (Deferred.mkState (Js.lit "hello") [] true)
           (Deferred.mount host_with_anchor)).
  reflexivity.
Defined.


Lemma commit_flag_false wA :
  Deferred.downloadOnPaste (Deferred.rendered (Deferred.flush wA)) = false ->
  Deferred.commit wA = Deferred.flush wA.
Proof.
  intros H. unfold Deferred.commit. cbv zeta. case_decide; [done|].
  unfold Deferred.effect. by rewrite H.
Qed.



Lemma dispatch_without_paste ev wA :
  is_deferred_paste ev = false ->
  Deferred.pending wA = [] ->
  Deferred.timers wA = [] ->
  Deferred.downloadOnPaste (Deferred.rendered wA) = false ->
  Deferred.pending (Deferred.dispatch ev wA) = []
  /\ Deferred.timers (Deferred.dispatch ev wA) = []
  /\ Deferred.downloadOnPaste (Deferred.rendered (Deferred.dispatch ev wA)) = false.
Proof.
  intros He Hp Ht Hf. destruct wA as [[sc er fl] pend ts ex h].
  simpl in Hp, Ht, Hf. subst.
  destruct ev as [v|clip sel| |]; [|discriminate He| |done].
  - unfold Deferred.dispatch. by rewrite commit_flag_false.
  - unfold Deferred.dispatch, exec. cbn [Deferred.rendered].
    destruct (Deferred.invalid sc) eqn:Hv.
    + rewrite (handleDownload_invalid (Deferred.mkState sc er false) _ Hv).
      by rewrite commit_flag_false.
    + rewrite (handleDownload_valid (Deferred.mkState sc er false) _ Hv).
      by rewrite commit_flag_false.
Qed.

(** X9. In the deferred revision nothing is scheduled without a paste:
    from a state with no update pending, no timer pending and the flag
    down, any sequence of edits, clicks on the button and timer ticks
    leaves no timer pending and the flag down. *)
Theorem deferred_without_paste_no_timer evs wA :
  Forall (fun ev => is_deferred_paste ev = false) evs ->
  Deferred.pending wA = [] ->
  Deferred.timers wA = [] ->
  Deferred.downloadOnPaste (Deferred.rendered wA) = false ->
  Deferred.timers (Deferred.run evs wA) = []
  /\ Deferred.downloadOnPaste (Deferred.rendered (Deferred.run evs wA)) = false
  /\ Deferred.pending (Deferred.run evs wA) = [].
Proof.
  intros Hevs. revert wA. induction Hevs as [|ev evs Hev _ IH]; intros wA Hp Ht Hf.
  - done.
  - destruct (dispatch_without_paste ev wA Hev Hp Ht Hf) as (Hp' & Ht' & Hf').
    exact (IH (Deferred.dispatch ev wA) Hp' Ht' Hf').
Qed.

Lemma deferred_without_paste_no_timer_witness :
  let evs := [Deferred.Change (Js.lit "<svg/>"); Deferred.ClickButton;
              Deferred.TimerFires; Deferred.Change (Js.lit "x"); Deferred.ClickButton] in
  Forall (fun ev => is_deferred_paste ev = false) evs
  /\ Deferred.timers (Deferred.run evs (Deferred.mount host_with_anchor)) = [].
Proof.
  cbv zeta.
  assert (H : Forall (fun ev => is_deferred_paste ev = false)
                [Deferred.Change (Js.lit "<svg/>"); Deferred.ClickButton;
                 Deferred.TimerFires; Deferred.Change (Js.lit "x"); Deferred.ClickButton])
    by (repeat constructor).
  split; [exact H|].
  apply (deferred_without_paste_no_timer _ (Deferred.mount host_with_anchor) H);
    reflexivity.
Defined.

End DeferredRuns.
